(** * Action Controller: the dispatch core, embedded and verified

    The development follows the TypeScript sources:
    - [services/hr.ts]          the per-service partial mapping,
    - [router.ts]               [actionRegistry], [routeAction], [getRegisteredActions],
    - [services/httpClient.ts]  [makeRequest],
    - [index.ts]                the [POST /actions/execute] handler.

    JavaScript values are embedded as an inductive type, objects parsed
    from JSON as finite maps, the registry as the list of its own
    properties in creation order.  Effects (console output and the
    outbound [fetch] call) are threaded through an explicit trace, and
    exceptions through an outcome type. *)

From stdpp Require Import gmap strings list fin_maps pretty sorting.
From Stdlib Require Import ZArith String Ascii.

Set Warnings "-register-all".
Local Open Scope string_scope.
Local Open Scope Z_scope.

(** ** JavaScript values *)

Module Js.

(** The values the handler can meet: what [express.json()] parses, plus
    [undefined] for absent properties.  Numbers are the integer-valued
    ones, kept as [Z]: the integers of size up to 2^53 are the ones
    every double holds exactly.  Strings are sequences of 8-bit
    characters, which is ASCII text, one character per code unit. *)
Inductive JsVal : Type :=
| JUndefined
| JNull
| JBool (b : bool)
| JNum (n : Z)
| JStr (s : string)
| JArr (elems : list JsVal)
| JObj (props : gmap string JsVal).

(** ToBoolean. *)
Definition truthy (v : JsVal) : bool :=
  match v with
  | JUndefined | JNull => false
  | JBool b => b
  | JNum n => negb (n =? 0)
  | JStr s => negb (String.eqb s "")
  | JArr _ | JObj _ => true
  end.

Fixpoint join (sep : string) (parts : list string) : string :=
  match parts with
  | [] => ""
  | [p] => p
  | p :: rest => p ++ sep ++ join sep rest
  end.

(** ToString, as applied by template literals and by property keys.
    An array prints its elements separated by commas, with [null] and
    [undefined] elements printed as the empty string; a plain object
    prints as [[object Object]].  The function gives the conversion's
    result where the conversion succeeds and prints in full, which is on
    the [plain] values below: an object with an own [toString] property
    makes the real conversion throw, and a number beyond 2^53 prints
    rounded or with an exponent. *)
Fixpoint ToString (v : JsVal) : string :=
  match v with
  | JUndefined => "undefined"
  | JNull => "null"
  | JBool true => "true"
  | JBool false => "false"
  | JNum n => pretty n
  | JStr s => s
  | JArr elems =>
      join "," (List.map (fun e => match e with
                                   | JUndefined | JNull => ""
                                   | _ => ToString e
                                   end) elems)
  | JObj _ => "[object Object]"
  end.

(** The values on which [ToString] is exact: a number within the
    integers every double holds, an object that inherits its [toString]
    (parsed JSON holds no function, so an own [toString] is not
    callable and the conversion throws a [TypeError]), an array of such
    values. *)
Fixpoint plain (v : JsVal) : bool :=
  match v with
  | JUndefined | JNull | JBool _ | JStr _ => true
  | JNum n => Z.abs n <=? 2 ^ 53
  | JArr elems => forallb plain elems
  | JObj props => bool_decide (props !! "toString" = None)
  end.

(** The own enumerable properties an object spread [{...v}] copies:
    the properties of an object, the indexed elements of an array, the
    indexed characters of a string, and nothing for the other values. *)
Definition index_props (elems : list JsVal) : gmap string JsVal :=
  list_to_map (imap (fun i e => (pretty i, e)) elems).

(** The characters of a string, one per code unit of ASCII text. *)
Fixpoint chars (s : string) : list JsVal :=
  match s with
  | EmptyString => []
  | String c rest => JStr (String c EmptyString) :: chars rest
  end.

Definition own_props (v : JsVal) : gmap string JsVal :=
  match v with
  | JObj props => props
  | JArr elems => index_props elems
  | JStr s => index_props (chars s)
  | _ => ∅
  end.

(** [Array.prototype.includes] on an array of strings (SameValueZero:
    only a string equals a string). *)
Definition includes (candidates : list string) (v : JsVal) : bool :=
  match v with
  | JStr s => bool_decide (s ∈ candidates)
  | _ => false
  end.

(** An error object: its constructor name and its message. *)
Record JsError : Type := mkError { err_name : string; message : string }.

Definition Error (msg : string) : JsError := mkError "Error" msg.
Definition TypeError (msg : string) : JsError := mkError "TypeError" msg.

End Js.

(** ** Plain objects with typed values: own properties in creation order *)

Module Obj.

Definition digit_of (c : ascii) : option N :=
  let n := N_of_ascii c in
  if ((48 <=? n) && (n <=? 57))%N then Some (n - 48)%N else None.

Fixpoint parse_digits (acc : N) (s : string) : option N :=
  match s with
  | EmptyString => Some acc
  | String c rest =>
      match digit_of c with
      | Some d => parse_digits (acc * 10 + d)%N rest
      | None => None
      end
  end.

(** An array index is a canonical decimal numeral below 2^32 - 1. *)
Definition array_index (s : string) : option N :=
  match s with
  | EmptyString => None
  | String c rest =>
      if bool_decide (c = "0"%char) && negb (bool_decide (rest = EmptyString))
      then None
      else match parse_digits 0 s with
           | Some n => if (n <? 2 ^ 32 - 1)%N then Some n else None
           | None => None
           end
  end.

Section PropList.
Context {V : Type}.

(** The own properties of an object, oldest first.  An object has no
    two properties of one name: see [is_object]. *)
Definition PropList : Type := list (string * V).

Definition is_object (o : PropList) : Prop := NoDup o.*1.

Fixpoint own_lookup (o : PropList) (k : string) : option V :=
  match o with
  | [] => None
  | (k', v) :: rest => if decide (k' = k) then Some v else own_lookup rest k
  end.

(** CreateDataProperty: an existing property keeps its place and takes
    the new value, a new one is added last. *)
Fixpoint set_prop (k : string) (v : V) (o : PropList) : PropList :=
  match o with
  | [] => [(k, v)]
  | (k', v') :: rest =>
      if decide (k' = k) then (k, v) :: rest else (k', v') :: set_prop k v rest
  end.

Definition is_index (e : string * V) : Prop := is_Some (array_index e.1).

Definition index_of (e : string * V) : N := default 0%N (array_index e.1).

Definition index_le (e1 e2 : string * V) : Prop := (index_of e1 <= index_of e2)%N.

#[local] Instance index_le_dec : RelDecision index_le.
Proof. intros e1 e2. unfold index_le. apply _. Defined.

(** OrdinaryOwnPropertyKeys: array indices in ascending order first,
    then the other names in creation order. *)
Definition own_entries (o : PropList) : PropList :=
  (merge_sort index_le (filter is_index o)
   ++ filter (fun e => ¬ is_index e) o)%list.

(** [Object.keys]. *)
Definition keys (o : PropList) : list string := (own_entries o).*1.

(** Object spread into a literal under construction:
    [{ ...target-so-far, ...src }]. *)
Definition spread (target src : PropList) : PropList :=
  fold_left (fun acc e => set_prop e.1 e.2 acc) (own_entries src) target.

(** An object literal made of spreads only: [{ ...p1, ...p2, ... }]. *)
Definition merge_all (parts : list PropList) : PropList :=
  fold_left spread parts [].

End PropList.

Arguments PropList : clear implicits.

End Obj.

(** ** Effects: console output, the outbound call, exceptions *)

Module Eff.
Import Js.

Record FetchInit : Type := mkInit {
  init_method : string;
  init_headers : gmap string string;
  (** [Some v] is the text [JSON.stringify(v)], [None] is [undefined]. *)
  init_body : option JsVal
}.

(** What [response.json()] settles to. *)
Inductive JsonOutcome : Type :=
| JsonRejected (e : JsError)
| JsonParsed (data : JsVal).

(** A [Response]: its status and what reading its body as JSON gives. *)
Record Response : Type := mkFetched { resp_status : Z; resp_json : JsonOutcome }.

(** What [fetch(url, init)] settles to: a rejection when the call cannot
    complete, otherwise a response. *)
Inductive FetchOutcome : Type :=
| FetchRejected (e : JsError)
| FetchResponse (r : Response).

Inductive LogItem : Type :=
| LText (s : string)
| LValue (v : JsVal)
| LError (e : JsError).

Inductive Event : Type :=
| ConsoleLog (items : list LogItem)
| ConsoleError (items : list LogItem)
| FetchCall (url : JsVal) (init : FetchInit).

(** Everything the process has done so far, oldest event first. *)
Definition World : Type := list Event.

Inductive Outcome (A : Type) : Type :=
| Returned (a : A)
| Thrown (e : JsError).
Arguments Returned {A} a.
Arguments Thrown {A} e.

Definition M (A : Type) : Type := World -> Outcome A * World.

Definition ret {A} (a : A) : M A := fun w => (Returned a, w).

Definition throw {A} (e : JsError) : M A := fun w => (Thrown e, w).

Definition bind {A B} (m : M A) (k : A -> M B) : M B :=
  fun w =>
    match m w with
    | (Returned a, w') => k a w'
    | (Thrown e, w') => (Thrown e, w')
    end.

(** [try { m } catch (error) { h error }]. *)
Definition try_catch {A} (m : M A) (h : JsError -> M A) : M A :=
  fun w =>
    match m w with
    | (Returned a, w') => (Returned a, w')
    | (Thrown e, w') => h e w'
    end.

Definition emit (ev : Event) : M unit := fun w => (Returned tt, (w ++ [ev])%list).

Definition console_log (items : list LogItem) : M unit := emit (ConsoleLog items).
Definition console_error (items : list LogItem) : M unit := emit (ConsoleError items).

Definition is_fetch (ev : Event) : bool :=
  match ev with
  | FetchCall _ _ => true
  | _ => false
  end.

(** The outbound calls recorded in a trace. *)
Definition fetch_calls (w : World) : list Event := List.filter is_fetch w.

(** A computation that never looks at the world it extends: from any
    world it gives the outcome and the new events it gives from the
    empty one. *)
Definition oblivious {A} (m : M A) : Prop :=
  forall w, m w = ((m []).1, (w ++ (m []).2)%list).

End Eff.

Declare Scope eff_scope.
Delimit Scope eff_scope with eff.
Notation "'let*' x ':=' m 'in' k" := (Eff.bind m (fun x => k))
  (at level 10, x pattern, m at level 100, k at level 200) : eff_scope.
Notation "'run' m 'then' k" := (Eff.bind m (fun _ => k))
  (at level 10, m at level 100, k at level 200) : eff_scope.

(** ** services/hr.ts and the registry of router.ts *)

Module Registry.
Import Js Obj.

Record ServiceConfig : Type := mkConfig { url : string; method : string }.

(** [process.env.HR_SERVICE_URL || 'http://localhost:3001']: an unset or
    empty variable gives the default. *)
Definition HR_SERVICE_BASE_URL (env_HR_SERVICE_URL : option string) : string :=
  match env_HR_SERVICE_URL with
  | Some s => if String.eqb s "" then "http://localhost:3001" else s
  | None => "http://localhost:3001"
  end.

Definition hrServiceConfig (env_HR_SERVICE_URL : option string) : PropList ServiceConfig :=
  let base := HR_SERVICE_BASE_URL env_HR_SERVICE_URL in
  [ ("CreateEmployee", mkConfig (base ++ "/employees/create") "POST");
    ("UpdateEmployee", mkConfig (base ++ "/employees/update") "POST");
    ("DeleteEmployee", mkConfig (base ++ "/employees/delete") "POST");
    ("GetEmployee", mkConfig (base ++ "/employees/get") "GET") ].

(** [const actionRegistry = { ...hrServiceConfig }]. *)
Definition actionRegistry (env_HR_SERVICE_URL : option string) : PropList ServiceConfig :=
  merge_all [hrServiceConfig env_HR_SERVICE_URL].

(** The registry is an object literal, so property reads on it also see
    what [Object.prototype] provides: functions, and the prototype
    itself under [__proto__]. *)
Definition object_prototype_names : list string :=
  [ "constructor"; "__defineGetter__"; "__defineSetter__"; "hasOwnProperty";
    "__lookupGetter__"; "__lookupSetter__"; "isPrototypeOf";
    "propertyIsEnumerable"; "toString"; "valueOf"; "__proto__"; "toLocaleString" ].

(** The value of [registry[key]]. *)
Inductive Slot : Type :=
| SlotUndefined
| SlotConfig (c : ServiceConfig)
| SlotInherited (name : string).

Definition registry_get (registry : PropList ServiceConfig) (key : string) : Slot :=
  match own_lookup registry key with
  | Some c => SlotConfig c
  | None =>
      if bool_decide (key ∈ object_prototype_names) then SlotInherited key
      else SlotUndefined
  end.

Definition slot_truthy (s : Slot) : bool :=
  match s with
  | SlotUndefined => false
  | SlotConfig _ | SlotInherited _ => true
  end.

(** [serviceConfig.url] and [serviceConfig.method], read on a truthy
    slot: an inherited function or prototype has neither property. *)
Definition slot_url (s : Slot) : JsVal :=
  match s with
  | SlotConfig c => JStr (url c)
  | _ => JUndefined
  end.

Definition slot_method (s : Slot) : option string :=
  match s with
  | SlotConfig c => Some (method c)
  | _ => None
  end.

End Registry.

(** ** services/httpClient.ts, router.ts, index.ts *)

Module Controller.
Import Js Obj Eff Registry.
Local Open Scope eff_scope.

(** [HttpClientOptions]: every field may be left [undefined]. *)
Record HttpClientOptions : Type := mkOptions {
  opt_method : option string;
  opt_headers : option (gmap string string);
  opt_body : JsVal
}.

(** The object [{ status, data }] a forwarded request resolves to. *)
Record ForwardResult : Type := mkResult { status : Z; data : JsVal }.

Record ActionPayload : Type := mkPayload { action : JsVal; args : JsVal; mode : JsVal }.

(** What the handler writes: [res.status(s).json(b)]. *)
Record HttpResponse : Type := mkResponse { res_status : Z; res_body : JsVal }.

Section Pipeline.

(** The runtime's [fetch], together with the downstream services behind
    it: a function of the request alone. *)
Variable fetch : JsVal -> FetchInit -> FetchOutcome.

(** The module constant [actionRegistry] of router.ts. *)
Variable registry : PropList ServiceConfig.

(** [await fetch(url, init)]: the call is recorded, then the promise
    settles. *)
Definition js_fetch (url : JsVal) (init : FetchInit) : M Response :=
  run emit (FetchCall url init) then
  match fetch url init with
  | FetchRejected e => throw e
  | FetchResponse r => ret r
  end.

(** [await response.json()]. *)
Definition response_json (response : Response) : M JsVal :=
  match resp_json response with
  | JsonRejected e => throw e
  | JsonParsed d => ret d
  end.

(** The second argument of [fetch]: the JSON content type comes first
    and the caller's headers are spread over it; a falsy body is not
    serialized. *)
Definition fetch_init (method : string) (headers : gmap string string)
    (body : JsVal) : FetchInit :=
  {| init_method := method;
     init_headers := headers ∪ {[ "Content-Type" := "application/json" ]};
     init_body := if truthy body then Some body else None |}.

Definition makeRequest (url : JsVal) (options : HttpClientOptions) : M ForwardResult :=
  let method := default "POST" (opt_method options) in
  let headers := default ∅ (opt_headers options) in
  let body := opt_body options in
  try_catch
    (run console_log [LText ("[HTTP Client] " ++ method ++ " " ++ ToString url)] then
     let* response := js_fetch url (fetch_init method headers body) in
     let* data := response_json response in
     run console_log
           [LText ("[HTTP Client] Response status: "
                   ++ pretty (resp_status response))] then
     ret {| status := resp_status response; data := data |})
    (fun error =>
       run console_error [LText "[HTTP Client] Error:"; LError error] then
       throw error).

(** The template literals and the property read convert [action] and
    [mode] with [ToString]: the definition is the function's behaviour
    on payloads whose [action] and [mode] are [plain]. *)
Definition routeAction (payload : ActionPayload) : M ForwardResult :=
  let '(mkPayload action args mode) := payload in
  run console_log
        [LText ("[Router] Received action: " ++ ToString action
                ++ " (mode: " ++ ToString mode ++ ")")] then
  run console_log [LText "[Router] Arguments:"; LValue args] then
  let serviceConfig := registry_get registry (ToString action) in
  if negb (slot_truthy serviceConfig)
  then throw (Error ("Unknown action: " ++ ToString action))
  else
    run console_log
          [LText ("[Router] Routing to: " ++ ToString (slot_url serviceConfig))] then
    makeRequest (slot_url serviceConfig)
      {| opt_method := slot_method serviceConfig;
         opt_headers := None;
         opt_body := JObj (<["mode" := mode]> (own_props args)) |}.

Definition getRegisteredActions : list string := keys registry.

(** [const { action, args, mode } = req.body]: reading a property of
    [undefined] or [null] throws; a missing property reads [undefined]. *)
Definition get_field (body : JsVal) (k : string) : JsVal :=
  match body with
  | JObj props => default JUndefined (props !! k)
  | _ => JUndefined
  end.

Definition fields_of (body : JsVal) : ActionPayload :=
  mkPayload (get_field body "action") (get_field body "args") (get_field body "mode").

Definition has_fields (body : JsVal) : bool :=
  match body with
  | JUndefined | JNull => false
  | _ => true
  end.

Definition destructure (body : JsVal) : M ActionPayload :=
  if has_fields body then ret (fields_of body)
  else throw (TypeError ("Cannot destructure property 'action' of 'req.body' as it is "
                         ++ ToString body ++ ".")).

Definition error_body (msg : string) : JsVal := JObj {[ "error" := JStr msg ]}.

(** The double quote character of the mode message. *)
Definition dquote : string := String "034"%char EmptyString.

Definition invalid_mode_message : string :=
  "Invalid or missing mode. Must be " ++ dquote ++ "simulate" ++ dquote
  ++ " or " ++ dquote ++ "execute" ++ dquote.

(** The [catch] block of the handler. *)
Definition on_error (error : JsError) : M HttpResponse :=
  run console_error [LText "[Action Controller] Error:"; LError error] then
  if String.prefix "Unknown action:" (message error)
  then ret (mkResponse 404
              (JObj {[ "error" := JStr (message error);
                       "availableActions" := JArr (JStr <$> getRegisteredActions) ]}))
  else ret (mkResponse 500
              (JObj {[ "error" := JStr "Internal server error";
                       "message" := JStr (message error) ]})).

(** The callback of [app.post('/actions/execute', ...)], as a function
    of [req.body]. *)
Definition execute_handler (req_body : JsVal) : M HttpResponse :=
  try_catch
    (let* fields := destructure req_body in
     let '(mkPayload action args mode) := fields in
     if negb (truthy action)
     then ret (mkResponse 400 (error_body "Missing required field: action"))
     else if negb (truthy args)
     then ret (mkResponse 400 (error_body "Missing required field: args"))
     else if negb (truthy mode) || negb (includes ["simulate"; "execute"] mode)
     then ret (mkResponse 400 (error_body invalid_mode_message))
     else
       let* result := routeAction (mkPayload action args mode) in
       ret (mkResponse (status result) (data result)))
    on_error.

End Pipeline.

(** The events each step leaves in the trace. *)
Definition received_events (p : ActionPayload) : list Event :=
  [ ConsoleLog [LText ("[Router] Received action: " ++ ToString (action p)
                       ++ " (mode: " ++ ToString (mode p) ++ ")")];
    ConsoleLog [LText "[Router] Arguments:"; LValue (args p)] ].

Definition routing_events (s : Slot) : list Event :=
  [ ConsoleLog [LText ("[Router] Routing to: " ++ ToString (slot_url s))] ].

Definition options_init (options : HttpClientOptions) : FetchInit :=
  fetch_init (default "POST" (opt_method options)) (default ∅ (opt_headers options))
             (opt_body options).

Definition request_events (url : JsVal) (options : HttpClientOptions) : list Event :=
  [ ConsoleLog [LText ("[HTTP Client] " ++ default "POST" (opt_method options)
                       ++ " " ++ ToString url)];
    FetchCall url (options_init options) ].

Definition response_events (r : Response) : list Event :=
  [ ConsoleLog [LText ("[HTTP Client] Response status: " ++ pretty (resp_status r))] ].

Definition failure_events (e : JsError) : list Event :=
  [ ConsoleError [LText "[HTTP Client] Error:"; LError e] ].

Definition caught_events (e : JsError) : list Event :=
  [ ConsoleError [LText "[Action Controller] Error:"; LError e] ].

(** The options [routeAction] hands to [makeRequest]. *)
Definition forward_options (s : Slot) (p : ActionPayload) : HttpClientOptions :=
  {| opt_method := slot_method s;
     opt_headers := None;
     opt_body := JObj (<["mode" := mode p]> (own_props (args p))) |}.

(** The checks of the handler, taken together. *)
Definition passes_validation (p : ActionPayload) : bool :=
  truthy (action p) && truthy (args p) && includes ["simulate"; "execute"] (mode p).

(** The two answers of the [catch] block. *)
Definition not_found_response (registry : PropList ServiceConfig) (msg : string)
    : HttpResponse :=
  mkResponse 404
    (JObj {[ "error" := JStr msg;
             "availableActions" := JArr (JStr <$> getRegisteredActions registry) ]}).

Definition server_error_response (msg : string) : HttpResponse :=
  mkResponse 500
    (JObj {[ "error" := JStr "Internal server error"; "message" := JStr msg ]}).

End Controller.

(** ** index.ts: the other routes, the logging middleware, the start-up *)

Module Endpoints.
Import Js Obj Eff Registry Controller.
Local Open Scope eff_scope.

(** [process.env.PORT || 3000]: the variable's text, or the number
    [3000] when it is unset or empty. *)
Definition PORT (env_PORT : option string) : JsVal :=
  match env_PORT with
  | Some s => if String.eqb s "" then JNum 3000 else JStr s
  | None => JNum 3000
  end.

(** The request logging middleware: one line made of the clock's
    reading [new Date().toISOString()], the method and the path, then
    [next()]. *)
Definition request_logger {A} (now req_method req_path : string) (next : M A) : M A :=
  run console_log [LText ("[" ++ now ++ "] " ++ req_method ++ " " ++ req_path)] then
  next.

Section Routes.
Variable fetch : JsVal -> FetchInit -> FetchOutcome.
Variable registry : PropList ServiceConfig.

(** [POST /actions/execute] as the application serves it: the logger,
    then the handler. *)
Definition post_execute (now req_path : string) (req_body : JsVal) : M HttpResponse :=
  request_logger now "POST" req_path (execute_handler fetch registry req_body).

(** The callback of [app.get('/health', ...)]; [res.json] alone answers
    with status 200. *)
Definition health_handler (now : string) : M HttpResponse :=
  ret (mkResponse 200
         (JObj {[ "status" := JStr "ok";
                  "timestamp" := JStr now;
                  "registeredActions" := JArr (JStr <$> getRegisteredActions registry) ]})).

(** [GET /health] as served; the logger and the handler each read the
    clock. *)
Definition get_health (logged_at now req_path : string) : M HttpResponse :=
  request_logger logged_at "GET" req_path (health_handler now).

(** The callback of [app.get('/', ...)]. *)
Definition root_handler : M HttpResponse :=
  ret (mkResponse 200
         (JObj {[ "service" := JStr "Action Controller";
                  "version" := JStr "1.0.0";
                  "endpoints" :=
                    JObj {[ "execute" := JStr "POST /actions/execute";
                            "health" := JStr "GET /health" ]} ]})).

(** The callback of [app.listen]. *)
Definition on_listen (env_PORT : option string) : M unit :=
  run console_log
        [LText ("[Action Controller] Server running on port "
                ++ ToString (PORT env_PORT))] then
  console_log [LText "[Action Controller] Registered actions:";
               LValue (JArr (JStr <$> getRegisteredActions registry))].

End Routes.

End Endpoints.

(** ** The words of the specification, for comparison with the code *)

Module Spec.
Import Js.

(** "action (non-empty string)". *)
Definition nonempty_string (v : JsVal) : bool :=
  match v with
  | JStr s => negb (String.eqb s "")
  | _ => false
  end.

(** "args (present, of mapping type)". *)
Definition mapping (v : JsVal) : bool :=
  match v with
  | JObj _ => true
  | _ => false
  end.

(** "mode (must be exactly simulate or execute)". *)
Definition valid_mode (v : JsVal) : bool :=
  match v with
  | JStr s => String.eqb s "simulate" || String.eqb s "execute"
  | _ => false
  end.

End Spec.

(** ** Concrete requests and downstream stubs *)

Module Examples.
Import Js Obj Eff Registry Controller.

Definition envelope (action args mode : JsVal) : JsVal :=
  JObj {[ "action" := action; "args" := args; "mode" := mode ]}.

(** A downstream that answers every call with [200] and a fixed body. *)
Definition created : JsVal := JObj {[ "id" := JStr "emp_123"; "status" := JStr "created" ]}.

Definition stub_ok (url : JsVal) (init : FetchInit) : FetchOutcome :=
  FetchResponse (mkFetched 200 (JsonParsed created)).

(** A downstream that answers with a business error. *)
Definition stub_conflict (url : JsVal) (init : FetchInit) : FetchOutcome :=
  FetchResponse (mkFetched 409 (JsonParsed (JObj {[ "error" := JStr "duplicate" ]}))).

(** An unreachable downstream. *)
Definition stub_refused (url : JsVal) (init : FetchInit) : FetchOutcome :=
  FetchRejected (TypeError "fetch failed").

(** A downstream whose body is not JSON. *)
Definition stub_html (url : JsVal) (init : FetchInit) : FetchOutcome :=
  FetchResponse (mkFetched 502
    (JsonRejected (mkError "SyntaxError" "Unexpected token < in JSON at position 0"))).

(** A transport whose failure message happens to begin like the
    dispatcher's own. *)
Definition stub_misleading (url : JsVal) (init : FetchInit) : FetchOutcome :=
  FetchRejected (Error "Unknown action: upstream").

Definition alice : JsVal :=
  JObj {[ "name" := JStr "Alice Smith"; "email" := JStr "alice@company.com" ]}.

Definition create_alice : JsVal := envelope (JStr "CreateEmployee") alice (JStr "execute").

Definition delete_universe : JsVal := envelope (JStr "DeleteUniverse") (JObj ∅) (JStr "execute").

Definition get_employee : JsVal := envelope (JStr "GetEmployee") (JObj ∅) (JStr "execute").

Definition finance : PropList ServiceConfig :=
  [ ("CreateInvoice", mkConfig "http://localhost:3002/invoices/create" "POST");
    ("GetEmployee", mkConfig "http://localhost:3002/staff" "POST") ].

End Examples.

(** * Properties *)

(** ** Objects: lookup, creation of properties, spread *)

Module ObjFacts.
Import Obj.

Section Lookup.
Context {V : Type}.
Implicit Types (o t : PropList V) (k : string) (v : V).

Lemma own_lookup_to_map o k :
  own_lookup o k = (list_to_map o : gmap string V) !! k.
Proof.
  induction o as [|[k' v'] rest IH]; cbn.
  - by rewrite lookup_empty.
  - case_decide as Hk.
    + subst. by rewrite lookup_insert_eq.
    + by rewrite lookup_insert_ne.
Qed.

Lemma own_lookup_app o1 o2 k :
  own_lookup (o1 ++ o2)%list k
  = match own_lookup o1 k with
    | Some v => Some v
    | None => own_lookup o2 k
    end.
Proof.
  induction o1 as [|[k' v'] rest IH]; cbn; [done|].
  by case_decide.
Qed.

Lemma own_lookup_set_prop o k v k' :
  own_lookup (set_prop k v o) k'
  = if decide (k = k') then Some v else own_lookup o k'.
Proof.
  induction o as [|[k0 v0] rest IH]; cbn.
  - done.
  - destruct (decide (k0 = k)) as [->|Hne]; cbn.
    + by case_decide.
    + rewrite IH. destruct (decide (k0 = k')) as [->|]; [|done].
      by rewrite decide_False.
Qed.

Lemma set_prop_keys o k v :
  (set_prop k v o).*1 = if bool_decide (k ∈ o.*1) then o.*1 else (o.*1 ++ [k])%list.
Proof.
  induction o as [|[k0 v0] rest IH]; cbn; [done|].
  destruct (decide (k0 = k)) as [->|Hne]; cbn.
  - rewrite bool_decide_eq_true_2; [done | left].
  - rewrite IH. destruct (bool_decide (k ∈ rest.*1)) eqn:E.
    + apply bool_decide_eq_true_1 in E.
      rewrite bool_decide_eq_true_2; [done | by right].
    + apply bool_decide_eq_false_1 in E.
      rewrite bool_decide_eq_false_2; [done|].
      intros [?|?]%elem_of_cons; congruence.
Qed.

(** Creating a property keeps an object an object. *)
Lemma set_prop_is_object o k v : is_object o → is_object (set_prop k v o).
Proof.
  unfold is_object. intros Hnd. rewrite set_prop_keys.
  destruct (bool_decide (k ∈ o.*1)) eqn:E; [done|].
  apply bool_decide_eq_false_1 in E.
  apply NoDup_app. split_and!; [done | | apply NoDup_singleton].
  intros x Hx ->%list_elem_of_singleton. done.
Qed.

Lemma own_entries_perm o : own_entries o ≡ₚ o.
Proof.
  unfold own_entries. rewrite merge_sort_Permutation.
  apply filter_app_complement.
Qed.

(** Enumeration reorders an object's properties and loses none. *)
Lemma own_lookup_own_entries o k :
  is_object o → own_lookup (own_entries o) k = own_lookup o k.
Proof.
  intros Hnd. rewrite !own_lookup_to_map.
  f_equal. apply list_to_map_proper; [|apply own_entries_perm].
  unfold is_object in Hnd. by rewrite own_entries_perm.
Qed.

Lemma own_lookup_rev o k :
  is_object o → own_lookup (rev o) k = own_lookup o k.
Proof.
  intros Hnd. rewrite !own_lookup_to_map.
  f_equal. apply list_to_map_proper.
  - unfold is_object in Hnd. by rewrite <- (Permutation_rev o).
  - symmetry. apply Permutation_rev.
Qed.

Lemma fold_set_prop_lookup (l : PropList V) t k :
  own_lookup (fold_left (fun acc e => set_prop e.1 e.2 acc) l t) k
  = match own_lookup (rev l) k with
    | Some v => Some v
    | None => own_lookup t k
    end.
Proof.
  revert t. induction l as [|[k0 v0] rest IH]; intros t; cbn [fold_left rev].
  - done.
  - rewrite IH, own_lookup_app, own_lookup_set_prop. cbn.
    destruct (own_lookup (rev rest) k); [done|].
    by case_decide.
Qed.

Lemma fold_set_prop_is_object (l : PropList V) t :
  is_object t → is_object (fold_left (fun acc e => set_prop e.1 e.2 acc) l t).
Proof.
  revert t. induction l as [|e rest IH]; intros t Ht; cbn; [done|].
  apply IH. by apply set_prop_is_object.
Qed.

(** A spread overwrites the names its source defines and keeps the rest. *)
Lemma spread_lookup t o k :
  is_object o →
  own_lookup (spread t o) k
  = match own_lookup o k with
    | Some v => Some v
    | None => own_lookup t k
    end.
Proof.
  intros Ho. unfold spread. rewrite fold_set_prop_lookup.
  rewrite own_lookup_rev, own_lookup_own_entries; [done..|].
  unfold is_object in *. by rewrite own_entries_perm.
Qed.

Lemma spread_is_object t o : is_object t → is_object (spread t o).
Proof. apply fold_set_prop_is_object. Qed.

Lemma merge_all_snoc (parts : list (PropList V)) o :
  merge_all (parts ++ [o]) = spread (merge_all parts) o.
Proof. unfold merge_all. by rewrite fold_left_app. Qed.

Lemma fold_spread_is_object (parts : list (PropList V)) t :
  is_object t → is_object (fold_left spread parts t).
Proof.
  revert t. induction parts as [|o rest IH]; intros t Ht; cbn; [done|].
  apply IH. by apply spread_is_object.
Qed.

Lemma merge_all_is_object (parts : list (PropList V)) : is_object (merge_all parts).
Proof. apply fold_spread_is_object. apply NoDup_nil_2. Qed.

End Lookup.

End ObjFacts.

(** ** The registry *)

Module RegistryFacts.
Import Js Obj Registry ObjFacts.

Lemma registry_get_own (registry : PropList ServiceConfig) k c :
  own_lookup registry k = Some c → registry_get registry k = SlotConfig c.
Proof. intros H. unfold registry_get. by rewrite H. Qed.

Lemma registry_get_undefined (registry : PropList ServiceConfig) k :
  registry_get registry k = SlotUndefined
  ↔ own_lookup registry k = None ∧ k ∉ object_prototype_names.
Proof.
  unfold registry_get. destruct (own_lookup registry k).
  - split; [discriminate | intros [? _]; discriminate].
  - case_bool_decide; split.
    + discriminate.
    + intros [_ ?]; contradiction.
    + done.
    + done.
Qed.

(** C6: merging partial mappings is last-write-wins.  When two partial
    mappings both define a name, the registry merged from them resolves
    the name to the descriptor of whichever mapping was merged last,
    also after any number of earlier mappings; the merge is a total
    function whose result is again an object, and it defines exactly the
    names its parts define. *)
Theorem merge_last_write_wins
    (earlier : list (PropList ServiceConfig)) (a b : PropList ServiceConfig)
    (x : string) (da db : ServiceConfig) :
  is_object a → is_object b →
  own_lookup a x = Some da → own_lookup b x = Some db →
  own_lookup (merge_all [a; b]) x = Some db
  ∧ own_lookup (merge_all [b; a]) x = Some da
  ∧ registry_get (merge_all (earlier ++ [a; b])) x = SlotConfig db
  ∧ is_object (merge_all [a; b])
  ∧ ∀ k, is_Some (own_lookup (merge_all [a; b]) k)
         ↔ is_Some (own_lookup a k) ∨ is_Some (own_lookup b k).
Proof.
  intros Ha Hb Hxa Hxb.
  assert (Hab : ∀ k, own_lookup (merge_all [a; b]) k
                     = match own_lookup b k with
                       | Some v => Some v
                       | None => own_lookup a k
                       end).
  { intros k. change (merge_all [a; b]) with (spread (spread [] a) b).
    rewrite !spread_lookup by done. by destruct (own_lookup b k), (own_lookup a k). }
  split_and!.
  - by rewrite Hab, Hxb.
  - change (merge_all [b; a]) with (spread (spread [] b) a).
    by rewrite spread_lookup, Hxa.
  - apply registry_get_own.
    replace (earlier ++ [a; b])%list with ((earlier ++ [a]) ++ [b])%list
      by (by rewrite <- app_assoc).
    by rewrite merge_all_snoc, spread_lookup, Hxb.
  - apply merge_all_is_object.
  - intros k. rewrite Hab.
    destruct (own_lookup b k), (own_lookup a k); split; intros H;
      try (by eauto); destruct H as [[? ?]|[? ?]]; done.
Qed.

Lemma merge_last_write_wins_witness :
  own_lookup (merge_all [hrServiceConfig None; Examples.finance]) "GetEmployee"
  = Some (mkConfig "http://localhost:3002/staff" "POST")
  ∧ own_lookup (merge_all [Examples.finance; hrServiceConfig None]) "GetEmployee"
    = Some (mkConfig "http://localhost:3001/employees/get" "GET").
Proof.
  pose proof (merge_last_write_wins [] (hrServiceConfig None) Examples.finance
                "GetEmployee"
                (mkConfig "http://localhost:3001/employees/get" "GET")
                (mkConfig "http://localhost:3002/staff" "POST")) as H.
  destruct H as (H1 & H2 & _).
  - apply (bool_decide_unpack _). vm_compute. exact I.
  - apply (bool_decide_unpack _). vm_compute. exact I.
  - reflexivity.
  - reflexivity.
  - split; [exact H1 | exact H2].
Defined.

(** The registry of the repository, whatever the environment. *)
Lemma actionRegistry_keys env :
  keys (actionRegistry env)
  = ["CreateEmployee"; "UpdateEmployee"; "DeleteEmployee"; "GetEmployee"].
Proof. reflexivity. Qed.

Lemma actionRegistry_lookup env k :
  own_lookup (actionRegistry env) k = own_lookup (hrServiceConfig env) k.
Proof.
  change (actionRegistry env) with (spread [] (hrServiceConfig env)).
  rewrite spread_lookup.
  - by destruct (own_lookup (hrServiceConfig env) k).
  - apply (bool_decide_unpack _). vm_compute. exact I.
Qed.

End RegistryFacts.

(** ** What each function does to the world, step by step *)

Module RunFacts.
Import Js Obj Eff Registry Controller.

Section Runs.
Variable fetch : JsVal -> FetchInit -> FetchOutcome.
Variable registry : PropList ServiceConfig.

Lemma makeRequest_run url options w :
  makeRequest fetch url options w
  = let w1 := (w ++ request_events url options)%list in
    match fetch url (options_init options) with
    | FetchRejected e => (Thrown e, (w1 ++ failure_events e)%list)
    | FetchResponse r =>
        match resp_json r with
        | JsonRejected e => (Thrown e, (w1 ++ failure_events e)%list)
        | JsonParsed d =>
            (Returned (mkResult (resp_status r) d), (w1 ++ response_events r)%list)
        end
    end.
Proof.
  cbv [makeRequest try_catch bind js_fetch response_json console_log
         console_error emit ret throw request_events options_init
         failure_events response_events].
  destruct (fetch url _) as [e|r].
  - by rewrite <- !app_assoc.
  - destruct (resp_json r); by rewrite <- !app_assoc.
Qed.

Lemma routeAction_run p w :
  routeAction fetch registry p w
  = let w1 := (w ++ received_events p)%list in
    let slot := registry_get registry (ToString (action p)) in
    if slot_truthy slot
    then makeRequest fetch (slot_url slot) (forward_options slot p)
           (w1 ++ routing_events slot)%list
    else (Thrown (Error ("Unknown action: " ++ ToString (action p))), w1).
Proof.
  destruct p as [a r m].
  cbv [routeAction bind console_log emit throw received_events routing_events
       forward_options action args mode].
  destruct (slot_truthy _); cbv [negb]; by rewrite <- !app_assoc.
Qed.

Lemma on_error_run e w :
  on_error registry e w
  = (Returned (if String.prefix "Unknown action:" (message e)
               then not_found_response registry (message e)
               else server_error_response (message e)),
     (w ++ caught_events e)%list).
Proof.
  cbv [on_error bind console_error emit ret caught_events].
  by destruct (String.prefix _ _).
Qed.

Lemma execute_handler_run req_body w :
  execute_handler fetch registry req_body w
  = if has_fields req_body
    then
      let p := fields_of req_body in
      if negb (truthy (action p))
      then (Returned (mkResponse 400 (error_body "Missing required field: action")), w)
      else if negb (truthy (args p))
      then (Returned (mkResponse 400 (error_body "Missing required field: args")), w)
      else if negb (truthy (mode p)) || negb (includes ["simulate"; "execute"] (mode p))
      then (Returned (mkResponse 400 (error_body invalid_mode_message)), w)
      else
        match routeAction fetch registry p w with
        | (Returned result, w') =>
            (Returned (mkResponse (status result) (data result)), w')
        | (Thrown e, w') => on_error registry e w'
        end
    else
      on_error registry
        (TypeError ("Cannot destructure property 'action' of 'req.body' as it is "
                    ++ ToString req_body ++ ".")) w.
Proof.
  unfold execute_handler, try_catch, destructure.
  destruct (has_fields req_body); cbv [bind ret throw]; [|done].
  cbv [fields_of action args mode].
  destruct (negb (truthy _)); [done|].
  destruct (negb (truthy _)); [done|].
  destruct (negb (truthy _) || _); [done|].
  destruct (routeAction _ _ _ _) as [[result|e] w']; done.
Qed.

End Runs.

End RunFacts.

(** ** No step reads the world *)

Module FrameFacts.
Import Js Obj Eff Registry Controller.

Section Combinators.
Context {A B : Type}.

Lemma oblivious_ret (a : A) : oblivious (ret a).
Proof. intros w. cbv [ret fst snd]. by rewrite app_nil_r. Qed.

Lemma oblivious_throw (e : JsError) : oblivious (@throw A e).
Proof. intros w. cbv [throw fst snd]. by rewrite app_nil_r. Qed.

Lemma oblivious_bind (m : M A) (k : A -> M B) :
  oblivious m → (∀ a, oblivious (k a)) → oblivious (bind m k).
Proof.
  intros Hm Hk w. unfold bind. rewrite (Hm w).
  destruct (m []) as [[a|e] evs]; cbn [fst snd].
  - rewrite (Hk a (w ++ evs)%list), (Hk a evs). cbn [fst snd].
    by rewrite app_assoc.
  - done.
Qed.

Lemma oblivious_try_catch (m : M A) (h : JsError -> M A) :
  oblivious m → (∀ e, oblivious (h e)) → oblivious (try_catch m h).
Proof.
  intros Hm Hh w. unfold try_catch. rewrite (Hm w).
  destruct (m []) as [[a|e] evs]; cbn [fst snd].
  - done.
  - rewrite (Hh e (w ++ evs)%list), (Hh e evs). cbn [fst snd].
    by rewrite app_assoc.
Qed.

End Combinators.

Lemma oblivious_emit ev : oblivious (emit ev).
Proof. intros w. reflexivity. Qed.

Ltac frame_step :=
  first [ apply oblivious_bind; [|intros ?]
        | apply oblivious_try_catch; [|intros ?]
        | apply oblivious_ret
        | apply oblivious_throw
        | apply oblivious_emit ].

Section Pipeline.
Variable fetch : JsVal -> FetchInit -> FetchOutcome.
Variable registry : PropList ServiceConfig.

Lemma oblivious_js_fetch url init : oblivious (js_fetch fetch url init).
Proof.
  unfold js_fetch. frame_step; [frame_step|].
  destruct (fetch url init); frame_step.
Qed.

Lemma oblivious_response_json r : oblivious (response_json r).
Proof. unfold response_json. destruct (resp_json r); frame_step. Qed.

Lemma oblivious_makeRequest url options : oblivious (makeRequest fetch url options).
Proof.
  unfold makeRequest, console_log, console_error.
  repeat first [ apply oblivious_js_fetch | apply oblivious_response_json | frame_step ].
Qed.

Lemma oblivious_routeAction p : oblivious (routeAction fetch registry p).
Proof.
  destruct p as [a r m]. unfold routeAction, console_log.
  do 2 (frame_step; [frame_step|]).
  destruct (negb _); [frame_step|].
  frame_step; [frame_step|]. apply oblivious_makeRequest.
Qed.

Lemma oblivious_on_error e : oblivious (on_error registry e).
Proof.
  unfold on_error, console_error. frame_step; [frame_step|].
  destruct (String.prefix _ _); frame_step.
Qed.

Lemma oblivious_destructure req_body : oblivious (destructure req_body).
Proof. unfold destructure. destruct (has_fields _); frame_step. Qed.

Lemma oblivious_execute_handler req_body :
  oblivious (execute_handler fetch registry req_body).
Proof.
  unfold execute_handler.
  frame_step; [|apply oblivious_on_error].
  frame_step; [apply oblivious_destructure|].
  destruct a as [a r m].
  destruct (negb _); [frame_step|].
  destruct (negb _); [frame_step|].
  destruct (negb _ || _); [frame_step|].
  frame_step; [apply oblivious_routeAction | frame_step].
Qed.

(** The handler answers every request: no exception leaves it. *)
Lemma execute_handler_returns req_body w :
  ∃ response, (execute_handler fetch registry req_body w).1 = Returned response.
Proof.
  rewrite RunFacts.execute_handler_run.
  destruct (has_fields req_body); [|rewrite RunFacts.on_error_run; eauto].
  cbv zeta.
  destruct (negb _); [eauto|].
  destruct (negb _); [eauto|].
  destruct (negb _ || _); [eauto|].
  destruct (routeAction _ _ _ _) as [[result|e] w']; [eauto|].
  rewrite RunFacts.on_error_run; eauto.
Qed.

(** C8: the pipeline is deterministic and stateless.  For a fixed
    registry and a downstream that is a function of the request, the
    response to a request body does not depend on the world the handler
    starts from; the handler only appends events to that world; so the
    same request served twice in a row, the second time in the world the
    first one left, gets the same response twice, and it always gets a
    response. *)
Theorem same_request_same_response (req_body : JsVal) (w w' : World) :
  (execute_handler fetch registry req_body w).1
  = (execute_handler fetch registry req_body w').1
  ∧ (execute_handler fetch registry req_body w).2
    = (w ++ (execute_handler fetch registry req_body []).2)%list
  ∧ (let first := execute_handler fetch registry req_body w in
     let second := execute_handler fetch registry req_body first.2 in
     first.1 = second.1
     ∧ ∃ response, first.1 = Returned response)
  ∧ ∀ other_body,
      (execute_handler fetch registry req_body
         (execute_handler fetch registry other_body w).2).1
      = (execute_handler fetch registry req_body w).1.
Proof.
  pose proof (oblivious_execute_handler req_body) as Hframe.
  split_and!.
  - by rewrite (Hframe w), (Hframe w').
  - by rewrite (Hframe w).
  - cbv zeta. split.
    + rewrite (Hframe w). cbn [fst snd]. by rewrite (Hframe (w ++ _)%list).
    + apply execute_handler_returns.
  - intros other_body.
    by rewrite (Hframe w), (Hframe (execute_handler _ _ other_body w).2).
Qed.

End Pipeline.

End FrameFacts.

(** ** The dispatcher *)

Module DispatchFacts.
Import Js Obj Eff Registry Controller RunFacts RegistryFacts.
Local Open Scope list_scope.

Lemma fetch_calls_app (w1 w2 : World) :
  fetch_calls (w1 ++ w2) = (fetch_calls w1 ++ fetch_calls w2)%list.
Proof. apply List.filter_app. Qed.

Lemma options_init_forward (s : Slot) (p : ActionPayload) :
  options_init (forward_options s p)
  = {| init_method := default "POST" (slot_method s);
       init_headers := {[ "Content-Type" := "application/json" ]};
       init_body := Some (JObj (<["mode" := mode p]> (own_props (args p)))) |}.
Proof.
  unfold options_init, forward_options, fetch_init. cbn [opt_method opt_headers opt_body].
  cbn [truthy default]. by rewrite (left_id_L ∅ (∪)).
Qed.

Section Dispatch.
Variable fetch : JsVal -> FetchInit -> FetchOutcome.
Variable registry : PropList ServiceConfig.

(** Whatever [makeRequest] is given, it makes exactly one outbound call. *)
Lemma makeRequest_fetch_calls url options w :
  fetch_calls (makeRequest fetch url options w).2
  = (fetch_calls w ++ [FetchCall url (options_init options)])%list.
Proof.
  rewrite makeRequest_run. cbv zeta.
  destruct (fetch url _) as [e|r]; [|destruct (resp_json r)]; cbn [snd];
    rewrite !fetch_calls_app; cbn; by rewrite app_nil_r.
Qed.

(** An action the registry lookup does not resolve is refused before
    anything is sent. *)
Lemma routeAction_unknown p w :
  registry_get registry (ToString (action p)) = SlotUndefined →
  routeAction fetch registry p w
  = (Thrown (Error ("Unknown action: " ++ ToString (action p))%string),
     (w ++ received_events p)%list).
Proof. intros H. rewrite routeAction_run. cbv zeta. by rewrite H. Qed.

(** A dispatch only adds to the world, and it does not return before
    it has logged. *)
Lemma routeAction_world_grows p w :
  (List.length w ≤ List.length (routeAction fetch registry p w).2)%nat
  ∧ ((routeAction fetch registry p w).2 = w →
     ∃ e, (routeAction fetch registry p w).1 = Thrown e).
Proof.
  assert (H : (List.length w < List.length (routeAction fetch registry p w).2)%nat).
  { rewrite routeAction_run. cbv zeta.
    destruct (slot_truthy _).
    - rewrite makeRequest_run. cbv zeta.
      destruct (fetch _ _) as [e|r]; [|destruct (resp_json r)]; cbn [snd];
        rewrite !length_app; cbn; lia.
    - cbn [snd]. rewrite length_app. cbn. lia. }
  split; [lia|].
  intros Heq. rewrite Heq in H. lia.
Qed.

(** A registered action: the call made and the one outbound request. *)
Lemma routeAction_registered p c w :
  own_lookup registry (ToString (action p)) = Some c →
  routeAction fetch registry p w
  = makeRequest fetch (JStr (url c)) (forward_options (SlotConfig c) p)
      (w ++ received_events p ++ routing_events (SlotConfig c))
  ∧ fetch_calls (routeAction fetch registry p w).2
    = fetch_calls w
      ++ [FetchCall (JStr (url c))
            {| init_method := method c;
               init_headers := {[ "Content-Type" := "application/json" ]};
               init_body := Some (JObj (<["mode" := mode p]> (own_props (args p)))) |}].
Proof.
  intros Hc.
  assert (Hrun : routeAction fetch registry p w
                 = makeRequest fetch (JStr (url c)) (forward_options (SlotConfig c) p)
                     (w ++ received_events p ++ routing_events (SlotConfig c))).
  { rewrite routeAction_run. cbv zeta.
    rewrite (registry_get_own _ _ _ Hc). cbn [slot_truthy slot_url].
    by rewrite <- app_assoc. }
  split; [exact Hrun|].
  rewrite Hrun, makeRequest_fetch_calls, !fetch_calls_app, options_init_forward.
  change (fetch_calls (received_events p)) with (@nil Event).
  change (fetch_calls (routing_events (SlotConfig c))) with (@nil Event).
  cbn [app]. by rewrite app_nil_r.
Qed.

(** C1: a registered action is forwarded to its route.  When the action
    (as a property key) is a key of the registry, [routeAction] calls
    [makeRequest] with the registered URL and method and with the body
    [{...args, mode}]; that is the one outbound call made, and in the
    body [mode] is the request's mode whatever [args] held under that
    name, while every other key of [args] is passed through. *)
Theorem dispatch_forwards_registered
    (action args mode : JsVal) (c : ServiceConfig) (w : World) :
  own_lookup registry (ToString action) = Some c →
  let p := mkPayload action args mode in
  let body := <["mode" := mode]> (own_props args) in
  routeAction fetch registry p w
  = makeRequest fetch (JStr (url c))
      {| opt_method := Some (method c); opt_headers := None; opt_body := JObj body |}
      (w ++ received_events p ++ routing_events (SlotConfig c))
  ∧ fetch_calls (routeAction fetch registry p w).2
    = fetch_calls w
      ++ [FetchCall (JStr (url c))
            {| init_method := method c;
               init_headers := {[ "Content-Type" := "application/json" ]};
               init_body := Some (JObj body) |}]
  ∧ body !! "mode" = Some mode
  ∧ (∀ k, k ≠ "mode" → body !! k = own_props args !! k)
  ∧ (∀ props, args = JObj props → own_props args = props).
Proof.
  intros Hc p body.
  destruct (routeAction_registered p c w Hc) as [Hrun Hcalls].
  split_and!.
  - exact Hrun.
  - exact Hcalls.
  - apply lookup_insert_eq.
  - intros k Hk. by apply lookup_insert_ne.
  - by intros props ->.
Qed.

End Dispatch.

Lemma dispatch_forwards_registered_witness :
  fetch_calls
    (routeAction Examples.stub_ok (actionRegistry None)
       (mkPayload (JStr "CreateEmployee")
          (JObj {[ "name" := JStr "Alice Smith"; "mode" := JStr "simulate" ]})
          (JStr "execute")) []).2
  = [FetchCall (JStr "http://localhost:3001/employees/create")
       {| init_method := "POST";
          init_headers := {[ "Content-Type" := "application/json" ]};
          init_body :=
            Some (JObj {[ "name" := JStr "Alice Smith"; "mode" := JStr "execute" ]}) |}].
Proof.
  pose proof (dispatch_forwards_registered Examples.stub_ok (actionRegistry None)
                (JStr "CreateEmployee")
                (JObj {[ "name" := JStr "Alice Smith"; "mode" := JStr "simulate" ]})
                (JStr "execute")
                (mkConfig "http://localhost:3001/employees/create" "POST") []) as H.
  destruct H as (_ & H & _).
  - reflexivity.
  - rewrite H. vm_compute. reflexivity.
Defined.

(** C9: a dispatched request always carries a body.  The body handed to
    [makeRequest] is an object holding the key [mode], hence truthy, so
    the branch of [makeRequest] that sends no body is never taken from
    [routeAction]: every outbound call a dispatch makes has a serialized
    body and the JSON content type.  In particular [GetEmployee], whose
    method is [GET], is sent with such a body. *)
Theorem dispatch_always_sends_body
    (fetch : JsVal -> FetchInit -> FetchOutcome) (registry : PropList ServiceConfig)
    (p : ActionPayload) (w : World) :
  (∀ s, truthy (opt_body (forward_options s p)) = true
        ∧ ∃ b, opt_body (forward_options s p) = JObj b ∧ is_Some (b !! "mode"))
  ∧ (∃ evs, (routeAction fetch registry p w).2 = w ++ evs
            ∧ ∀ url init, FetchCall url init ∈ evs →
                ∃ b, init_body init = Some (JObj b)
                     ∧ b !! "mode" = Some (mode p)
                     ∧ init_headers init !! "Content-Type" = Some "application/json")
  ∧ ∀ env,
      fetch_calls
        (routeAction fetch (actionRegistry env)
           (mkPayload (JStr "GetEmployee") (args p) (mode p)) w).2
      = fetch_calls w
        ++ [FetchCall (JStr (HR_SERVICE_BASE_URL env ++ "/employees/get")%string)
              {| init_method := "GET";
                 init_headers := {[ "Content-Type" := "application/json" ]};
                 init_body :=
                   Some (JObj (<["mode" := mode p]> (own_props (args p)))) |}].
Proof.
  split_and!.
  - intros s. split; [done|].
    eexists. split; [reflexivity|]. rewrite lookup_insert_eq. eauto.
  - rewrite routeAction_run. cbv zeta.
    destruct (slot_truthy _).
    + rewrite makeRequest_run. cbv zeta. rewrite options_init_forward.
      set (init0 := {| init_method := _; init_headers := _; init_body := _ |}).
      assert (Hinit : ∃ b, init_body init0 = Some (JObj b)
                ∧ b !! "mode" = Some (mode p)
                ∧ init_headers init0 !! "Content-Type" = Some "application/json").
      { eexists. split; [reflexivity|]. split; [apply lookup_insert_eq | done]. }
      destruct (fetch _ init0) as [e|r]; [|destruct (resp_json r)]; cbn [snd];
        rewrite <- !app_assoc; (eexists; split; [reflexivity|]);
        intros url init Hin;
        repeat (apply elem_of_app in Hin as [Hin|Hin]);
        repeat (apply elem_of_cons in Hin as [Hin|Hin]; [try discriminate|]);
        try (by apply elem_of_nil in Hin);
        by injection Hin as -> ->.
    + cbn [snd]. eexists. split; [reflexivity|].
      intros url init Hin.
      repeat (apply elem_of_cons in Hin as [Hin|Hin]; [discriminate|]).
      by apply elem_of_nil in Hin.
  - intros env.
    apply (routeAction_registered fetch (actionRegistry env)
             (mkPayload (JStr "GetEmployee") (args p) (mode p))
             (mkConfig (HR_SERVICE_BASE_URL env ++ "/employees/get") "GET") w).
    reflexivity.
Qed.

(** C2, at the name [constructor]: it is not a key of the registry, yet
    the lookup finds the function every object inherits under that name,
    so nothing is thrown by the dispatcher itself and [makeRequest] is
    called, with no URL and the default method; the handler then answers
    with what the transport gives, a server error when the call fails. *)
Theorem inherited_name_is_forwarded
    (fetch : JsVal -> FetchInit -> FetchOutcome) (env : option string)
    (args mode : JsVal) (w : World) :
("constructor" ∉ keys (actionRegistry env))
  ∧ own_lookup (actionRegistry env) "constructor" = None
  ∧ routeAction fetch (actionRegistry env) (mkPayload (JStr "constructor") args mode) w
    = makeRequest fetch JUndefined
        (forward_options (SlotInherited "constructor")
           (mkPayload (JStr "constructor") args mode))
        (w ++ received_events (mkPayload (JStr "constructor") args mode)
           ++ routing_events (SlotInherited "constructor"))
  ∧ fetch_calls
      (routeAction fetch (actionRegistry env)
         (mkPayload (JStr "constructor") args mode) w).2
    = fetch_calls w
      ++ [FetchCall JUndefined
            {| init_method := "POST";
               init_headers := {[ "Content-Type" := "application/json" ]};
               init_body := Some (JObj (<["mode" := mode]> (own_props args))) |}]
  ∧ (execute_handler Examples.stub_refused (actionRegistry env)
       (Examples.envelope (JStr "constructor") (JObj ∅) (JStr "execute")) []).1
    = Returned (server_error_response "fetch failed")
  ∧ (execute_handler Examples.stub_ok (actionRegistry env)
       (Examples.envelope (JStr "constructor") (JObj ∅) (JStr "execute")) []).1
    = Returned (mkResponse 200 Examples.created).
Proof.
  assert (Hrun : routeAction fetch (actionRegistry env)
                   (mkPayload (JStr "constructor") args mode) w
                 = makeRequest fetch JUndefined
                     (forward_options (SlotInherited "constructor")
                        (mkPayload (JStr "constructor") args mode))
                     (w ++ received_events (mkPayload (JStr "constructor") args mode)
                        ++ routing_events (SlotInherited "constructor"))).
  { rewrite routeAction_run. cbv zeta. cbn [Controller.action ToString].
    change (registry_get (actionRegistry env) "constructor")
      with (SlotInherited "constructor").
    cbn [slot_truthy slot_url]. by rewrite <- app_assoc. }
  split_and!.
  - rewrite actionRegistry_keys. apply (bool_decide_unpack _). vm_compute. exact I.
  - reflexivity.
  - exact Hrun.
  - rewrite Hrun, makeRequest_fetch_calls, !fetch_calls_app.
    cbn [fetch_calls List.filter received_events routing_events is_fetch app].
    rewrite app_nil_r. do 2 f_equal.
  - reflexivity.
  - reflexivity.
Qed.

End DispatchFacts.

(** ** The entry handler *)

Module HandlerFacts.
Import Js Obj Eff Registry Controller RunFacts RegistryFacts DispatchFacts.
Local Open Scope list_scope.

Lemma passes_validation_checks p :
  passes_validation p = true →
  negb (truthy (action p)) = false
  ∧ negb (truthy (args p)) = false
  ∧ negb (truthy (mode p)) || negb (includes ["simulate"; "execute"] (mode p)) = false.
Proof.
  unfold passes_validation. intros [[Ha Hr]%andb_prop Hm]%andb_prop.
  rewrite Ha, Hr, Hm. split_and!; [done..|].
  destruct (mode p) as [| | | |s| |]; try discriminate. cbn.
  destruct (String.eqb s "") eqn:E; [|done].
  apply String.eqb_eq in E. by subst s.
Qed.

Section Handler.
Variable fetch : JsVal -> FetchInit -> FetchOutcome.
Variable registry : PropList ServiceConfig.

(** A request that passes the checks is answered from the dispatch. *)
Lemma execute_handler_valid req_body w :
  has_fields req_body = true →
  passes_validation (fields_of req_body) = true →
  execute_handler fetch registry req_body w
  = match routeAction fetch registry (fields_of req_body) w with
    | (Returned result, w') => (Returned (mkResponse (status result) (data result)), w')
    | (Thrown e, w') => on_error registry e w'
    end.
Proof.
  intros Hf (Ha & Hr & Hm)%passes_validation_checks.
  rewrite execute_handler_run, Hf. cbv zeta. by rewrite Ha, Hr, Hm.
Qed.

(** A dispatch the handler makes, answered or caught, leaves the world
    changed: [routeAction] logs before it returns, and an error it
    throws is logged by the [catch] block. *)
Lemma handled_dispatch_changes_world p w0 :
  match routeAction fetch registry p w0 with
  | (Returned _, w') => w' ≠ w0
  | (Thrown e, w') => (on_error registry e w').2 ≠ w0
  end.
Proof.
  destruct (routeAction_world_grows fetch registry p w0) as [Hlen Hret].
  destruct (routeAction fetch registry p w0) as [[result|e] w'] eqn:Hrun;
    cbn [fst snd] in *.
  - intros ->. by destruct (Hret eq_refl).
  - rewrite on_error_run. cbn [snd]. intros Heq.
    apply (f_equal (@List.length Event)) in Heq.
    rewrite length_app in Heq. cbn in Heq. lia.
Qed.

(** C3, as the code has it: a request whose body has properties is
    answered 400, with nothing logged, nothing dispatched and nothing
    sent, whenever [action] is falsy (absent, [null], [false], [0] or
    the empty string), whenever [args] is falsy, and whenever [mode] is
    not exactly the string [simulate] or [execute]; each of the three
    checks rejects whatever the other two fields hold.  A dispatch the
    handler makes always changes the world, so the world is left as it
    was exactly when a check rejects: the types of [action] and [args]
    are not looked at, and any truthy [action] with any truthy [args]
    and one of the two modes is dispatched. *)
Theorem validation_rejects_falsy (req_body : JsVal) (w : World) :
  has_fields req_body = true →
  truthy (get_field req_body "action") = false
  ∨ truthy (get_field req_body "args") = false
  ∨ includes ["simulate"; "execute"] (get_field req_body "mode") = false →
  (∃ msg, execute_handler fetch registry req_body w
          = (Returned (mkResponse 400 (error_body msg)), w))
  ∧ (truthy (get_field req_body "action") = false →
     execute_handler fetch registry req_body w
     = (Returned (mkResponse 400 (error_body "Missing required field: action")), w))
  ∧ (∀ p w0,
       match routeAction fetch registry p w0 with
       | (Returned _, w') => w' ≠ w0
       | (Thrown e, w') => (on_error registry e w').2 ≠ w0
       end)
  ∧ (∀ other w0,
       has_fields other = true →
       (execute_handler fetch registry other w0).2 = w0
       ↔ truthy (get_field other "action") = false
         ∨ truthy (get_field other "args") = false
         ∨ includes ["simulate"; "execute"] (get_field other "mode") = false)
  ∧ (∀ other w0,
       has_fields other = true →
       truthy (get_field other "action") = true →
       truthy (get_field other "args") = true →
       includes ["simulate"; "execute"] (get_field other "mode") = true →
       execute_handler fetch registry other w0
       = match routeAction fetch registry (fields_of other) w0 with
         | (Returned result, w') =>
             (Returned (mkResponse (status result) (data result)), w')
         | (Thrown e, w') => on_error registry e w'
         end).
Proof.
  intros Hf Hbad.
  split_and!.
  - rewrite execute_handler_run, Hf. cbv zeta. cbn [fields_of action args mode].
    destruct (truthy (get_field req_body "action")); cbn [negb]; [|eauto].
    destruct (truthy (get_field req_body "args")); cbn [negb]; [|eauto].
    destruct Hbad as [?|[?|Hm]]; [done..|].
    rewrite Hm. cbn [negb]. rewrite orb_true_r. eauto.
  - rewrite execute_handler_run, Hf. cbv zeta. cbn [fields_of action args mode].
    by intros ->.
  - apply handled_dispatch_changes_world.
  - intros other w0 Hother.
    rewrite execute_handler_run, Hother. cbv zeta. cbn [fields_of action args mode].
    destruct (truthy (get_field other "action")); cbn [negb]; [|by split; eauto].
    destruct (truthy (get_field other "args")); cbn [negb]; [|by split; eauto].
    destruct (includes _ (get_field other "mode")) eqn:Hinc; cbn [negb].
    + assert (truthy (get_field other "mode") = true) as ->.
      { destruct (get_field other "mode") as [| | | |m| |]; try discriminate.
        cbn. destruct (String.eqb m "") eqn:E; [|done].
        apply String.eqb_eq in E. by subst m. }
      cbn [negb orb].
      pose proof (handled_dispatch_changes_world
                    (mkPayload (get_field other "action") (get_field other "args")
                               (get_field other "mode")) w0) as Hchg.
      destruct (routeAction _ _ _ _) as [[result|e] w'].
      * cbn [snd]. split; [done|]. by intros [?|[?|?]].
      * split; [done|]. by intros [?|[?|?]].
    + rewrite orb_true_r. cbn [snd]. by split; eauto.
  - intros other w0 Hother Ha Hr Hm. apply execute_handler_valid; [done|].
    unfold passes_validation, fields_of. cbn [action args mode].
    by rewrite Ha, Hr, Hm.
Qed.

(** C4: a request that passes the checks and names a registered action
    gets the downstream's status and body, whatever the status: the
    dispatcher returns the forwarder's result as it is, and the handler
    writes its status and data as they are. *)
Theorem downstream_reflected
    (req_body : JsVal) (w : World) (c : ServiceConfig) (r : Response) (d : JsVal) :
  has_fields req_body = true →
  passes_validation (fields_of req_body) = true →
  own_lookup registry (ToString (action (fields_of req_body))) = Some c →
  fetch (JStr (url c)) (options_init (forward_options (SlotConfig c) (fields_of req_body)))
  = FetchResponse r →
  resp_json r = JsonParsed d →
  (makeRequest fetch (JStr (url c)) (forward_options (SlotConfig c) (fields_of req_body))
     (w ++ received_events (fields_of req_body) ++ routing_events (SlotConfig c))).1
  = Returned (mkResult (resp_status r) d)
  ∧ (routeAction fetch registry (fields_of req_body) w).1
    = Returned (mkResult (resp_status r) d)
  ∧ (execute_handler fetch registry req_body w).1
    = Returned (mkResponse (resp_status r) d)
  ∧ (execute_handler fetch registry req_body w).2
    = (routeAction fetch registry (fields_of req_body) w).2.
Proof.
  intros Hf Hv Hc Hfetch Hjson.
  rewrite (execute_handler_valid _ _ Hf Hv).
  destruct (routeAction_registered fetch registry _ c w Hc) as [-> _].
  rewrite makeRequest_run. cbv zeta. rewrite Hfetch, Hjson. done.
Qed.

(** Where the lookup finds nothing at all, the answer is the 404: a
    request that passes the checks and whose action converts to a
    string that is neither a key of the registry nor a name every
    object inherits, is answered 404 with the error
    [Unknown action: <name>] and with [availableActions] equal to
    [getRegisteredActions()]; nothing is sent downstream. *)
Lemma unresolved_action_not_found (req_body : JsVal) (w : World) :
  has_fields req_body = true →
  passes_validation (fields_of req_body) = true →
  plain (action (fields_of req_body)) = true →
  own_lookup registry (ToString (action (fields_of req_body))) = None →
  ToString (action (fields_of req_body)) ∉ object_prototype_names →
  let name := ToString (action (fields_of req_body)) in
  execute_handler fetch registry req_body w
  = (Returned
       (mkResponse 404
          (JObj {[ "error" := JStr ("Unknown action: " ++ name)%string;
                   "availableActions" := JArr (JStr <$> getRegisteredActions registry) ]})),
     w ++ received_events (fields_of req_body)
       ++ caught_events (Error ("Unknown action: " ++ name)%string))
  ∧ fetch_calls (execute_handler fetch registry req_body w).2 = fetch_calls w.
Proof.
  intros Hf Hv _ Hown Hproto name.
  assert (Hrun : execute_handler fetch registry req_body w
                 = (Returned (not_found_response registry
                                ("Unknown action: " ++ name)%string),
                    w ++ received_events (fields_of req_body)
                      ++ caught_events (Error ("Unknown action: " ++ name)%string))).
  { rewrite (execute_handler_valid _ _ Hf Hv).
    rewrite routeAction_unknown by (by apply registry_get_undefined).
    rewrite on_error_run. cbn [message Error].
    change (String.prefix "Unknown action:" ("Unknown action: " ++ _)%string) with true.
    by rewrite <- app_assoc. }
  split; [exact Hrun|].
  rewrite Hrun. cbn [snd]. rewrite !fetch_calls_app. cbn. by rewrite app_nil_r.
Qed.

(** C10: errors are classified by the beginning of their message.  An
    error thrown from the dispatch path, whatever threw it and whatever
    its type, is answered with the 404 response carrying
    [availableActions] exactly when its message starts with
    [Unknown action:], and with the 500 response otherwise. *)
Theorem errors_classified_by_prefix
    (req_body : JsVal) (w w' : World) (e : JsError) :
  has_fields req_body = true →
  passes_validation (fields_of req_body) = true →
  routeAction fetch registry (fields_of req_body) w = (Thrown e, w') →
  execute_handler fetch registry req_body w
  = (Returned (if String.prefix "Unknown action:" (message e)
               then not_found_response registry (message e)
               else server_error_response (message e)),
     w' ++ caught_events e)
  ∧ (∀ response,
       (execute_handler fetch registry req_body w).1 = Returned response →
       (response = not_found_response registry (message e)
        ↔ String.prefix "Unknown action:" (message e) = true)
       ∧ (response = server_error_response (message e)
          ↔ String.prefix "Unknown action:" (message e) = false)).
Proof.
  intros Hf Hv Hthrown.
  assert (Hrun : execute_handler fetch registry req_body w
                 = (Returned (if String.prefix "Unknown action:" (message e)
                              then not_found_response registry (message e)
                              else server_error_response (message e)),
                    w' ++ caught_events e)).
  { by rewrite (execute_handler_valid _ _ Hf Hv), Hthrown, on_error_run. }
  split; [exact Hrun|].
  intros response. rewrite Hrun. cbn [fst]. intros [= <-].
  destruct (String.prefix _ _); split; split; done.
Qed.

(** C7, as the code has it: [makeRequest] reads the body as JSON whatever
    the status and returns [{status, data}] for any status; it throws
    exactly when [fetch] rejects or the body is not JSON, with the error
    it was given.  That error leaves the dispatcher unchanged, and the
    handler answers it with 500 and the error's message, provided the
    message does not begin with [Unknown action:]. *)
Theorem forwarder_errors_surface
    (req_body : JsVal) (w : World) (c : ServiceConfig) (e : JsError) :
  has_fields req_body = true →
  passes_validation (fields_of req_body) = true →
  own_lookup registry (ToString (action (fields_of req_body))) = Some c →
  (let init := options_init (forward_options (SlotConfig c) (fields_of req_body)) in
   fetch (JStr (url c)) init = FetchRejected e
   ∨ ∃ r, fetch (JStr (url c)) init = FetchResponse r ∧ resp_json r = JsonRejected e) →
  (routeAction fetch registry (fields_of req_body) w).1 = Thrown e
  ∧ (String.prefix "Unknown action:" (message e) = false →
     (execute_handler fetch registry req_body w).1
     = Returned (server_error_response (message e)))
  ∧ ∀ u options w0,
      (∀ r d, fetch u (options_init options) = FetchResponse r →
              resp_json r = JsonParsed d →
              (makeRequest fetch u options w0).1
              = Returned (mkResult (resp_status r) d))
      ∧ (∀ e0, (makeRequest fetch u options w0).1 = Thrown e0
               ↔ (fetch u (options_init options) = FetchRejected e0
                  ∨ ∃ r, fetch u (options_init options) = FetchResponse r
                         ∧ resp_json r = JsonRejected e0)).
Proof.
  intros Hf Hv Hc Hfail. cbv zeta in Hfail.
  assert (Hthrown : (routeAction fetch registry (fields_of req_body) w).1 = Thrown e).
  { destruct (routeAction_registered fetch registry _ c w Hc) as [-> _].
    rewrite makeRequest_run. cbv zeta.
    destruct Hfail as [->|(r & -> & ->)]; done. }
  split_and!.
  - exact Hthrown.
  - intros Hprefix. rewrite (execute_handler_valid _ _ Hf Hv).
    destruct (routeAction _ _ _ _) as [o w'] eqn:Hrun. cbn [fst] in Hthrown. subst o.
    by rewrite on_error_run, Hprefix.
  - intros u options w0. rewrite makeRequest_run. cbv zeta. split.
    + by intros r d -> ->.
    + intros e0. destruct (fetch u _) as [e1|r].
      * cbn [fst]. split.
        -- intros [= ->]. by left.
        -- intros [[= ->]|(r & [=] & _)]. done.
      * destruct (resp_json r) as [e1|d] eqn:Hj; cbn [fst]; split.
        -- intros [= ->]. right. eauto.
        -- intros [[=]|(r' & [= <-] & Hr)]. congruence.
        -- intros [=].
        -- intros [[=]|(r' & [= <-] & Hr)]. congruence.
Qed.

End Handler.

(** A number for [args] is not of mapping type, and the request is
    forwarded all the same. *)
Lemma type_checks_counterexample :
  ¬ (∀ (fetch : JsVal -> FetchInit -> FetchOutcome)
       (registry : PropList ServiceConfig) (req_body : JsVal) (w : World),
       has_fields req_body = true →
       Spec.nonempty_string (get_field req_body "action") = false
       ∨ Spec.mapping (get_field req_body "args") = false
       ∨ Spec.valid_mode (get_field req_body "mode") = false →
       ∃ response,
         (execute_handler fetch registry req_body w).1 = Returned response
         ∧ res_status response = 400).
Proof.
  intros H.
  destruct (H Examples.stub_ok (actionRegistry None)
              (Examples.envelope (JStr "CreateEmployee") (JNum 7) (JStr "execute")) [])
    as (response & Hrun & Hstatus).
  - reflexivity.
  - right. left. reflexivity.
  - vm_compute in Hrun. injection Hrun as <-. discriminate Hstatus.
Qed.

(** A number for [action] is not a string, and the request is answered
    as an unknown action. *)
Lemma non_string_action_dispatched :
  (execute_handler Examples.stub_ok (actionRegistry None)
     (Examples.envelope (JNum 5) (JObj ∅) (JStr "execute")) []).1
  = Returned (not_found_response (actionRegistry None) "Unknown action: 5").
Proof. vm_compute. reflexivity. Qed.

Lemma validation_rejects_falsy_witness :
  ∃ msg,
    execute_handler Examples.stub_ok (actionRegistry None)
      (JObj {[ "action" := JStr "CreateEmployee"; "mode" := JStr "execute" ]}) []
    = (Returned (mkResponse 400 (error_body msg)), []).
Proof.
  apply (validation_rejects_falsy Examples.stub_ok (actionRegistry None)
           (JObj {[ "action" := JStr "CreateEmployee"; "mode" := JStr "execute" ]}) []).
  - reflexivity.
  - right. left. reflexivity.
Defined.

Lemma downstream_reflected_witness :
  (execute_handler Examples.stub_conflict (actionRegistry None) Examples.create_alice []).1
  = Returned (mkResponse 409 (JObj {[ "error" := JStr "duplicate" ]})).
Proof.
  apply (downstream_reflected Examples.stub_conflict (actionRegistry None)
           Examples.create_alice []
           (mkConfig "http://localhost:3001/employees/create" "POST")
           (mkFetched 409 (JsonParsed (JObj {[ "error" := JStr "duplicate" ]})))).
  - reflexivity.
  - reflexivity.
  - reflexivity.
  - reflexivity.
  - reflexivity.
Defined.

(** C5, at the name [constructor]: the action is unknown, being no key
    of the registry and absent from [getRegisteredActions()]; the
    request passes the checks; yet the handler does not answer 404.  The
    lookup finds the inherited function, one call goes out with no URL,
    and the answer is whatever that call gives: a server error when it
    fails, the downstream's status and body when it is answered. *)
Theorem inherited_name_not_answered_404
    (fetch : JsVal -> FetchInit -> FetchOutcome) (env : option string) (w : World) :
  let req_body := Examples.envelope (JStr "constructor") (JObj ∅) (JStr "execute") in
  own_lookup (actionRegistry env) "constructor" = None
  ∧ ("constructor" ∉ getRegisteredActions (actionRegistry env))
  ∧ has_fields req_body && passes_validation (fields_of req_body) = true
  ∧ execute_handler fetch (actionRegistry env) req_body w
    = match makeRequest fetch JUndefined
              (forward_options (SlotInherited "constructor") (fields_of req_body))
              (w ++ received_events (fields_of req_body)
                 ++ routing_events (SlotInherited "constructor")) with
      | (Returned result, w') =>
          (Returned (mkResponse (status result) (data result)), w')
      | (Thrown e, w') => on_error (actionRegistry env) e w'
      end
  ∧ fetch_calls (execute_handler fetch (actionRegistry env) req_body w).2
    = fetch_calls w
      ++ [FetchCall JUndefined
            {| init_method := "POST";
               init_headers := {[ "Content-Type" := "application/json" ]};
               init_body := Some (JObj {[ "mode" := JStr "execute" ]}) |}]
  ∧ (execute_handler Examples.stub_refused (actionRegistry env) req_body w).1
    = Returned (server_error_response "fetch failed")
  ∧ (execute_handler Examples.stub_ok (actionRegistry env) req_body w).1
    = Returned (mkResponse 200 Examples.created).
Proof.
  intros req_body.
  assert (Hrun : ∀ f, execute_handler f (actionRegistry env) req_body w
            = match makeRequest f JUndefined
                      (forward_options (SlotInherited "constructor") (fields_of req_body))
                      (w ++ received_events (fields_of req_body)
                         ++ routing_events (SlotInherited "constructor")) with
              | (Returned result, w') =>
                  (Returned (mkResponse (status result) (data result)), w')
              | (Thrown e, w') => on_error (actionRegistry env) e w'
              end).
  { intros f. rewrite execute_handler_valid by reflexivity.
    rewrite routeAction_run. cbv zeta.
    change (registry_get (actionRegistry env)
              (ToString (action (fields_of req_body))))
      with (SlotInherited "constructor").
    cbn [slot_truthy slot_url]. by rewrite <- app_assoc. }
  split_and!.
  - reflexivity.
  - rewrite actionRegistry_keys. apply (bool_decide_unpack _). vm_compute. exact I.
  - reflexivity.
  - apply Hrun.
  - rewrite Hrun.
    pose proof (makeRequest_fetch_calls fetch JUndefined
                  (forward_options (SlotInherited "constructor") (fields_of req_body))
                  (w ++ received_events (fields_of req_body)
                     ++ routing_events (SlotInherited "constructor"))) as Hcalls.
    rewrite !fetch_calls_app in Hcalls.
    change (fetch_calls (received_events (fields_of req_body))) with (@nil Event) in Hcalls.
    change (fetch_calls (routing_events (SlotInherited "constructor")))
      with (@nil Event) in Hcalls.
    cbn [app] in Hcalls. rewrite app_nil_r in Hcalls.
    destruct (makeRequest fetch JUndefined _ _) as [[result|e] w'] eqn:Hm;
      cbn [snd] in *.
    + exact Hcalls.
    + rewrite on_error_run. cbn [snd]. rewrite fetch_calls_app, Hcalls.
      change (fetch_calls (caught_events e)) with (@nil Event).
      by rewrite app_nil_r.
  - rewrite Hrun, RunFacts.makeRequest_run. reflexivity.
  - rewrite Hrun, RunFacts.makeRequest_run. reflexivity.
Qed.

(** A transport failure whose message begins with [Unknown action:] is
    answered 404. *)
Lemma transport_failure_counterexample :
  ¬ (∀ (fetch : JsVal -> FetchInit -> FetchOutcome)
       (registry : PropList ServiceConfig) (req_body : JsVal) (w : World)
       (c : ServiceConfig) (e : JsError),
       has_fields req_body = true →
       passes_validation (fields_of req_body) = true →
       own_lookup registry (ToString (action (fields_of req_body))) = Some c →
       fetch (JStr (url c))
         (options_init (forward_options (SlotConfig c) (fields_of req_body)))
       = FetchRejected e →
       (execute_handler fetch registry req_body w).1
       = Returned (server_error_response (message e))).
Proof.
  intros H.
  specialize (H Examples.stub_misleading (actionRegistry None) Examples.create_alice []
                (mkConfig "http://localhost:3001/employees/create" "POST")
                (Error "Unknown action: upstream") eq_refl eq_refl eq_refl eq_refl).
  vm_compute in H. discriminate H.
Qed.

Lemma forwarder_errors_surface_witness :
  (routeAction Examples.stub_refused (actionRegistry None)
     (fields_of Examples.get_employee) []).1
  = Thrown (TypeError "fetch failed")
  ∧ (execute_handler Examples.stub_refused (actionRegistry None)
       Examples.get_employee []).1
    = Returned (mkResponse 500
                  (JObj {[ "error" := JStr "Internal server error";
                           "message" := JStr "fetch failed" ]})).
Proof.
  pose proof (forwarder_errors_surface Examples.stub_refused (actionRegistry None)
                Examples.get_employee []
                (mkConfig "http://localhost:3001/employees/get" "GET")
                (TypeError "fetch failed")) as H.
  destruct H as (H1 & H2 & _).
  - reflexivity.
  - reflexivity.
  - reflexivity.
  - left. reflexivity.
  - split; [exact H1 | apply H2; reflexivity].
Defined.

Lemma errors_classified_by_prefix_witness :
  execute_handler Examples.stub_ok (actionRegistry None) Examples.delete_universe []
  = (Returned (not_found_response (actionRegistry None) "Unknown action: DeleteUniverse"),
     received_events (fields_of Examples.delete_universe)
     ++ caught_events (Error "Unknown action: DeleteUniverse")).
Proof.
  pose proof (errors_classified_by_prefix Examples.stub_ok (actionRegistry None)
                Examples.delete_universe []
                (received_events (fields_of Examples.delete_universe))
                (Error "Unknown action: DeleteUniverse")) as H.
  destruct H as [H _].
  - reflexivity.
  - reflexivity.
  - reflexivity.
  - rewrite H. reflexivity.
Defined.

End HandlerFacts.

(** ** The end-to-end scenarios of the documentation *)

Module Scenarios.
Import Js Obj Eff Registry Controller.
Local Open Scope list_scope.

(** Scenario 1: the downstream's answer to [CreateEmployee] comes back
    as it is. *)
Example create_employee_succeeds :
  (execute_handler Examples.stub_ok (actionRegistry None) Examples.create_alice []).1
  = Returned (mkResponse 200 Examples.created).
Proof. vm_compute. reflexivity. Qed.

(** Scenario 2: [DeleteUniverse] is not registered. *)
Example delete_universe_not_found :
  (execute_handler Examples.stub_ok (actionRegistry None) Examples.delete_universe []).1
  = Returned
      (mkResponse 404
         (JObj {[ "error" := JStr "Unknown action: DeleteUniverse";
                  "availableActions" :=
                    JArr [JStr "CreateEmployee"; JStr "UpdateEmployee";
                          JStr "DeleteEmployee"; JStr "GetEmployee"] ]})).
Proof. vm_compute. reflexivity. Qed.

(** Scenario 3: an unreachable downstream gives a 500 with the
    transport's message, after exactly one outbound call. *)
Example get_employee_unreachable :
  let served :=
    execute_handler Examples.stub_refused (actionRegistry None)
      Examples.get_employee [] in
  served.1 = Returned (server_error_response "fetch failed")
  ∧ List.length (fetch_calls served.2) = 1%nat.
Proof. vm_compute. split; reflexivity. Qed.

(** A body that is not JSON gives a 500 with the parser's message. *)
Example unparsable_body :
  (execute_handler Examples.stub_html (actionRegistry None) Examples.create_alice []).1
  = Returned (server_error_response "Unexpected token < in JSON at position 0").
Proof. vm_compute. reflexivity. Qed.

(** A request without a parsed body is answered 500. *)
Example missing_body :
  (execute_handler Examples.stub_ok (actionRegistry None) JUndefined []).1
  = Returned
      (server_error_response
         "Cannot destructure property 'action' of 'req.body' as it is undefined.").
Proof. vm_compute. reflexivity. Qed.

(** An array holding one registered name is, as a property key, that
    name. *)
Example array_action_is_routed :
  (execute_handler Examples.stub_ok (actionRegistry None)
     (Examples.envelope (JArr [JStr "GetEmployee"]) (JObj ∅) (JStr "simulate")) []).1
  = Returned (mkResponse 200 Examples.created).
Proof. vm_compute. reflexivity. Qed.

(** The environment variable moves every route. *)
Example base_url_from_environment :
  own_lookup (actionRegistry (Some "http://hr")) "CreateEmployee"
  = Some (mkConfig "http://hr/employees/create" "POST")
  ∧ own_lookup (actionRegistry (Some "")) "CreateEmployee"
    = Some (mkConfig "http://localhost:3001/employees/create" "POST").
Proof. split; reflexivity. Qed.

End Scenarios.

(** ** More on the forwarder *)

Module ForwarderFacts.
Import Js Obj Eff Registry Controller RunFacts DispatchFacts.
Local Open Scope list_scope.

(** The values [ToBoolean] sends to [false]. *)
Lemma falsy_values v :
  truthy v = false ↔ v ∈ [JUndefined; JNull; JBool false; JNum 0; JStr ""].
Proof.
  split.
  - destruct v as [| |b|n|s| |]; cbn; intros H; try discriminate.
    + set_solver.
    + set_solver.
    + destruct b; [discriminate | set_solver].
    + apply negb_false_iff, Z.eqb_eq in H. subst. set_solver.
    + apply negb_false_iff, String.eqb_eq in H. subst. set_solver.
  - intros H. repeat (apply elem_of_cons in H as [->|H]; [done|]).
    by apply elem_of_nil in H.
Qed.

Section Forwarder.
Variable fetch : JsVal -> FetchInit -> FetchOutcome.

(** X1: [makeRequest] tries once.  Whatever the outcome it makes exactly
    one outbound call, after its request line; what follows the call is
    one more line: the status line when it returns, and when it throws
    the [console.error] line carrying the very error it rethrows. *)
Theorem makeRequest_single_attempt (u : JsVal) (options : HttpClientOptions) (w : World) :
  fetch_calls (makeRequest fetch u options w).2
  = fetch_calls w ++ [FetchCall u (options_init options)]
  ∧ (∀ e, (makeRequest fetch u options w).1 = Thrown e →
          (makeRequest fetch u options w).2
          = w ++ request_events u options
              ++ [ConsoleError [LText "[HTTP Client] Error:"; LError e]])
  ∧ (∀ res, (makeRequest fetch u options w).1 = Returned res →
            (makeRequest fetch u options w).2
            = w ++ request_events u options
                ++ [ConsoleLog [LText ("[HTTP Client] Response status: "
                                       ++ pretty (status res))%string]]).
Proof.
  split; [apply makeRequest_fetch_calls|].
  rewrite makeRequest_run. cbv zeta.
  destruct (fetch u _) as [e0|r]; [|destruct (resp_json r) as [e0|d]]; cbn [fst snd];
    split; intros x [= <-]; by rewrite <- app_assoc.
Qed.

(** X2: a falsy body is not sent.  The outbound call has no body exactly
    when the body given to [makeRequest] is [undefined], [null],
    [false], [0] or the empty string; any other body is sent as it is.
    The JSON content type is set either way. *)
Theorem falsy_body_not_sent (u : JsVal) (options : HttpClientOptions) (w : World) :
  ∃ init,
    fetch_calls (makeRequest fetch u options w).2 = fetch_calls w ++ [FetchCall u init]
    ∧ (init_body init = None
       ↔ opt_body options ∈ [JUndefined; JNull; JBool false; JNum 0; JStr ""])
    ∧ (∀ v, init_body init = Some v → v = opt_body options)
    ∧ (opt_headers options = None →
       init_headers init !! "Content-Type" = Some "application/json").
Proof.
  exists (options_init options). split_and!.
  - apply makeRequest_fetch_calls.
  - rewrite <- falsy_values. unfold options_init, fetch_init. cbn [init_body].
    by destruct (truthy (opt_body options)).
  - unfold options_init, fetch_init. cbn [init_body].
    destruct (truthy (opt_body options)); [by intros v [= <-] | done].
  - intros H. unfold options_init, fetch_init. cbn [init_headers]. by rewrite H.
Qed.

(** X3: the caller's method and headers win.  The call uses the given
    method, and [POST] only when none is given; every header the caller
    gives is sent with the caller's value, also [Content-Type]; the JSON
    content type is sent when the caller gives none, and no other header
    is added. *)
Theorem caller_method_and_headers_win
    (u : JsVal) (options : HttpClientOptions) (w : World) :
  ∃ init,
    fetch_calls (makeRequest fetch u options w).2 = fetch_calls w ++ [FetchCall u init]
    ∧ init_method init
      = match opt_method options with
        | Some m => m
        | None => "POST"
        end
    ∧ ∀ k,
        init_headers init !! k
        = match default ∅ (opt_headers options) !! k with
          | Some v => Some v
          | None => if decide (k = "Content-Type") then Some "application/json" else None
          end.
Proof.
  exists (options_init options). split_and!.
  - apply makeRequest_fetch_calls.
  - unfold options_init, fetch_init. cbn [init_method]. by destruct (opt_method options).
  - intros k. unfold options_init, fetch_init. cbn [init_headers].
    rewrite lookup_union.
    destruct (default ∅ (opt_headers options) !! k) as [v|]; cbn.
    + by destruct ({[_ := _]} !! k).
    + rewrite lookup_singleton. case_decide as Hk; case_decide; subst; done.
Qed.

End Forwarder.

End ForwarderFacts.

(** ** More on the registry *)

Module RegistryMoreFacts.
Import Js Obj Eff Registry Controller ObjFacts RegistryFacts.
Local Open Scope list_scope.

Lemma elem_of_keys_raw {V} (o : PropList V) k :
  k ∈ o.*1 ↔ is_Some (own_lookup o k).
Proof.
  induction o as [|[k' v] rest IH]; cbn.
  - split; [by intros ?%elem_of_nil | by intros [? ?]].
  - rewrite elem_of_cons, IH. case_decide as Hk; split.
    + eauto.
    + intros _. by left.
    + intros [->|?]; done.
    + intros ?. by right.
Qed.

Lemma keys_perm {V} (o : PropList V) : keys o ≡ₚ o.*1.
Proof. unfold keys. by rewrite own_entries_perm. Qed.

Lemma prefix_app (s t : string) : String.prefix s (s ++ t)%string = true.
Proof.
  induction s as [|c s IH].
  - by destruct t.
  - change ((if Ascii.ascii_dec c c then String.prefix s (s ++ t)%string else false) = true).
    destruct (Ascii.ascii_dec c c); [exact IH | done].
Qed.

(** X4: what [getRegisteredActions] lists.  A name is listed exactly
    when the registry has it as an own property, so a name that is only
    inherited is never listed; the list of an object has no name twice,
    and a registry merged from any partial mappings is such an object. *)
Theorem listed_actions_are_own_keys (registry : PropList ServiceConfig) :
  (∀ k, k ∈ getRegisteredActions registry ↔ is_Some (own_lookup registry k))
  ∧ (∀ k, k ∈ object_prototype_names → own_lookup registry k = None →
          (k ∉ getRegisteredActions registry)
          ∧ slot_truthy (registry_get registry k) = true)
  ∧ (is_object registry → NoDup (getRegisteredActions registry))
  ∧ (∀ parts : list (PropList ServiceConfig),
       NoDup (getRegisteredActions (merge_all parts))).
Proof.
  assert (Hin : ∀ k, k ∈ getRegisteredActions registry
                     ↔ is_Some (own_lookup registry k)).
  { intros k. unfold getRegisteredActions. by rewrite keys_perm, elem_of_keys_raw. }
  split_and!.
  - exact Hin.
  - intros k Hk Hown. split.
    + rewrite Hin, Hown. by intros [? ?].
    + unfold registry_get. rewrite Hown. by rewrite bool_decide_eq_true_2.
  - intros Hobj. unfold getRegisteredActions. by rewrite keys_perm.
  - intros parts. unfold getRegisteredActions. rewrite keys_perm.
    apply merge_all_is_object.
Qed.

(** X5: a merged registry resolves a name to its last definition.  For
    partial mappings that are objects, the lookup in their merge is the
    descriptor of the last mapping that defines the name, and none when
    no mapping defines it; so a name only an earlier mapping defines
    keeps its descriptor. *)
Theorem merge_resolves_to_last_definition
    (parts : list (PropList ServiceConfig)) (x : string) :
  Forall is_object parts →
  own_lookup (merge_all parts) x
  = fold_left (fun found o => match own_lookup o x with
                              | Some c => Some c
                              | None => found
                              end) parts None
  ∧ (∀ earlier last, parts = earlier ++ [last] → own_lookup last x = None →
       own_lookup (merge_all parts) x = own_lookup (merge_all earlier) x)
  ∧ ((∀ o, o ∈ parts → own_lookup o x = None) → own_lookup (merge_all parts) x = None).
Proof.
  intros Hobj.
  assert (Hfold : ∀ ps : list (PropList ServiceConfig), Forall is_object ps →
            own_lookup (merge_all ps) x
            = fold_left (fun found o => match own_lookup o x with
                                        | Some c => Some c
                                        | None => found
                                        end) ps None).
  { intros ps. induction ps as [|o ps IH] using rev_ind; intros Hps; [reflexivity|].
    apply Forall_app in Hps as [Hps Ho]. rewrite Forall_singleton in Ho.
    rewrite merge_all_snoc, spread_lookup, fold_left_app by done. cbn.
    by rewrite IH. }
  split_and!.
  - by apply Hfold.
  - intros earlier last -> Hnone.
    apply Forall_app in Hobj as [_ Ho]. rewrite Forall_singleton in Ho.
    by rewrite merge_all_snoc, spread_lookup, Hnone.
  - intros Hnone. rewrite Hfold by done. clear Hfold Hobj.
    induction parts as [|o ps IH] using rev_ind; [done|].
    rewrite fold_left_app. cbn.
    rewrite (Hnone o) by (apply elem_of_app; right; apply list_elem_of_singleton; done).
    apply IH. intros o' Ho'. apply Hnone, elem_of_app. by left.
Qed.

Lemma merge_resolves_to_last_definition_witness :
  own_lookup (merge_all [hrServiceConfig None; Examples.finance]) "CreateEmployee"
  = Some (mkConfig "http://localhost:3001/employees/create" "POST").
Proof.
  pose proof (merge_resolves_to_last_definition
                [hrServiceConfig None; Examples.finance] "CreateEmployee") as H.
  destruct H as [H _].
  - repeat apply Forall_cons_2; [| |apply Forall_nil_2];
      apply (bool_decide_unpack _); vm_compute; exact I.
  - rewrite H. reflexivity.
Defined.

(** X6: the routes of the HR service.  Whatever the environment, the
    registry lists the same four actions in the same order and is an
    object; the base URL is never empty, an unset or empty variable
    giving the default; every route's URL begins with the base URL, and
    [GetEmployee] alone uses [GET]. *)
Theorem hr_routes_under_base (env : option string) :
  getRegisteredActions (actionRegistry env)
  = ["CreateEmployee"; "UpdateEmployee"; "DeleteEmployee"; "GetEmployee"]
  ∧ is_object (actionRegistry env)
  ∧ HR_SERVICE_BASE_URL env ≠ ""
  ∧ (env = None ∨ env = Some "" → HR_SERVICE_BASE_URL env = "http://localhost:3001")
  ∧ (∀ s, s ≠ "" → HR_SERVICE_BASE_URL (Some s) = s)
  ∧ ∀ k c, own_lookup (actionRegistry env) k = Some c →
           String.prefix (HR_SERVICE_BASE_URL env) (url c) = true
           ∧ (method c = "GET" ↔ k = "GetEmployee")
           ∧ (method c = "POST" ↔ k ≠ "GetEmployee").
Proof.
  split_and!.
  - reflexivity.
  - apply merge_all_is_object.
  - unfold HR_SERVICE_BASE_URL. destruct env as [s|]; [|done].
    destruct (String.eqb s "") eqn:E; [done|].
    by apply String.eqb_neq in E.
  - intros [->| ->]; reflexivity.
  - intros s Hs. unfold HR_SERVICE_BASE_URL.
    apply String.eqb_neq in Hs. by rewrite Hs.
  - intros k c. rewrite actionRegistry_lookup. cbn.
    repeat (case_decide; [subst k; intros [= <-]; cbn [url method];
                          split_and!; [apply prefix_app | done | done] |]).
    done.
Qed.

End RegistryMoreFacts.

(** ** More on the dispatcher *)

Module RouterMoreFacts.
Import Js Obj Eff Registry Controller RunFacts RegistryFacts DispatchFacts.
Local Open Scope list_scope.

(** A decimal numeral is built by putting digits in front. *)
Lemma pretty_N_go_shape (x : N) (s : string) :
  pretty_N_go x s = s ∨ ∃ d rest, pretty_N_go x s = String (pretty_N_char d) rest.
Proof.
  revert s. induction (N.lt_wf_0 x) as [x _ IH]; intros s.
  destruct (decide (x = 0)%N) as [->|Hx].
  - left. apply pretty_N_go_0.
  - right. rewrite pretty_N_go_step by lia.
    destruct (IH (x `div` 10)%N ltac:(apply N.div_lt; lia)
                 (String (pretty_N_char (x `mod` 10)) s)) as [->|Hd]; eauto.
Qed.

Lemma pretty_nat_not_mode (i : nat) : pretty i ≠ "mode".
Proof.
  unfold pretty, pretty_nat, pretty, pretty_N.
  case_decide; [done|].
  destruct (pretty_N_go_shape (N.of_nat i) "") as [->|(d & rest & ->)]; [done|].
  unfold pretty_N_char. by repeat case_match.
Qed.

Lemma imap_to_map_lookup {A} (g : nat → string) (l : list A) (i : nat) :
  Inj (=) (=) g →
  (list_to_map (imap (fun j e => (g j, e)) l) : gmap string A) !! g i = l !! i.
Proof.
  revert g i. induction l as [|a l IH]; intros g i Hg; cbn.
  - apply lookup_empty.
  - destruct i as [|i]; cbn.
    + apply lookup_insert_eq.
    + rewrite lookup_insert_ne by (intros ?%Hg; done).
      apply (IH (g ∘ S) i). intros j1 j2 ?%Hg. congruence.
Qed.

(** The elements of an array are spread under their indices. *)
Lemma index_props_lookup (elems : list JsVal) (i : nat) :
  index_props elems !! pretty i = elems !! i.
Proof. apply (imap_to_map_lookup pretty elems i). apply _. Qed.

Section Router.
Variable fetch : JsVal -> FetchInit -> FetchOutcome.
Variable registry : PropList ServiceConfig.

(** Whenever the lookup gives anything, one call goes out. *)
Lemma routeAction_forwarded_calls p w :
  slot_truthy (registry_get registry (ToString (action p))) = true →
  routeAction fetch registry p w
  = makeRequest fetch (slot_url (registry_get registry (ToString (action p))))
      (forward_options (registry_get registry (ToString (action p))) p)
      (w ++ received_events p
         ++ routing_events (registry_get registry (ToString (action p))))
  ∧ fetch_calls (routeAction fetch registry p w).2
    = fetch_calls w
      ++ [FetchCall (slot_url (registry_get registry (ToString (action p))))
            (options_init
               (forward_options (registry_get registry (ToString (action p))) p))].
Proof.
  intros Hs.
  assert (Hrun : routeAction fetch registry p w
            = makeRequest fetch (slot_url (registry_get registry (ToString (action p))))
                (forward_options (registry_get registry (ToString (action p))) p)
                (w ++ received_events p
                   ++ routing_events (registry_get registry (ToString (action p))))).
  { rewrite routeAction_run. cbv zeta. rewrite Hs. by rewrite <- app_assoc. }
  split; [exact Hrun|].
  rewrite Hrun, makeRequest_fetch_calls, !fetch_calls_app.
  change (fetch_calls (received_events p)) with (@nil Event).
  change (fetch_calls (routing_events _)) with (@nil Event).
  cbn [app]. by rewrite app_nil_r.
Qed.

(** X7: the dispatcher refuses exactly the names the lookup does not
    resolve.  For a payload whose action and mode convert to strings,
    [routeAction] makes no outbound call if and only if the action, as a
    property key, is neither an own key of the registry nor a name
    inherited from [Object.prototype]; it then throws an [Error] whose
    message is [Unknown action: ] followed by that key, having written
    its two log lines and nothing else. *)
Theorem dispatch_refuses_unresolved (p : ActionPayload) (w : World) :
  plain (action p) = true →
  plain (mode p) = true →
  (fetch_calls (routeAction fetch registry p w).2 = fetch_calls w
   ↔ own_lookup registry (ToString (action p)) = None
     ∧ ToString (action p) ∉ object_prototype_names)
  ∧ (own_lookup registry (ToString (action p)) = None →
     ToString (action p) ∉ object_prototype_names →
     routeAction fetch registry p w
     = (Thrown (mkError "Error" ("Unknown action: " ++ ToString (action p))%string),
        w ++ received_events p)).
Proof.
  intros _ _. split.
  - rewrite <- registry_get_undefined. split.
    + intros Hcalls.
      destruct (registry_get registry (ToString (action p))) as [|c|k] eqn:Hslot; [done|..].
      * destruct (routeAction_forwarded_calls p w) as [_ H]; [by rewrite Hslot|].
        rewrite H in Hcalls. apply (f_equal (@List.length Event)) in Hcalls.
        rewrite length_app in Hcalls. cbn in Hcalls. lia.
      * destruct (routeAction_forwarded_calls p w) as [_ H]; [by rewrite Hslot|].
        rewrite H in Hcalls. apply (f_equal (@List.length Event)) in Hcalls.
        rewrite length_app in Hcalls. cbn in Hcalls. lia.
    + intros Hslot. rewrite routeAction_unknown by done. cbn [snd].
      rewrite fetch_calls_app.
      change (fetch_calls (received_events p)) with (@nil Event).
      by rewrite app_nil_r.
  - intros Hown Hproto. apply routeAction_unknown.
    by apply registry_get_undefined.
Qed.

(** X8: a name inherited from [Object.prototype] is forwarded.  When the
    action, as a property key, is one of the inherited names and the
    registry does not define it, [routeAction] throws nothing of its
    own: it logs [Routing to: undefined] and calls [makeRequest] with no
    URL and no method, so one call goes out to [undefined] with the
    default method [POST] and the body [{...args, mode}]. *)
Theorem inherited_names_are_forwarded (p : ActionPayload) (w : World) :
  ToString (action p) ∈ object_prototype_names →
  own_lookup registry (ToString (action p)) = None →
  routeAction fetch registry p w
  = makeRequest fetch JUndefined
      {| opt_method := None; opt_headers := None;
         opt_body := JObj (<["mode" := mode p]> (own_props (args p))) |}
      (w ++ received_events p ++ [ConsoleLog [LText "[Router] Routing to: undefined"]])
  ∧ fetch_calls (routeAction fetch registry p w).2
    = fetch_calls w
      ++ [FetchCall JUndefined
            {| init_method := "POST";
               init_headers := {[ "Content-Type" := "application/json" ]};
               init_body := Some (JObj (<["mode" := mode p]> (own_props (args p)))) |}].
Proof.
  intros Hproto Hown.
  assert (Hslot : registry_get registry (ToString (action p))
                  = SlotInherited (ToString (action p))).
  { unfold registry_get. rewrite Hown. by rewrite bool_decide_eq_true_2. }
  destruct (routeAction_forwarded_calls p w) as [Hrun Hcalls]; [by rewrite Hslot|].
  rewrite Hslot in Hrun, Hcalls. split; [exact Hrun|].
  rewrite Hcalls. by rewrite options_init_forward.
Qed.

(** X9: what is sent for [args] that is not a mapping.  For a registered
    action, [args] that is [undefined], [null], a boolean or a number
    adds nothing, so the body sent is [{mode}] alone; the elements of an
    array are sent under their indices, next to [mode]. *)
Theorem body_of_non_mapping_args
    (action mode : JsVal) (c : ServiceConfig) (w : World) :
  own_lookup registry (ToString action) = Some c →
  (∀ args,
     args ∈ [JUndefined; JNull] ∨ (∃ b, args = JBool b) ∨ (∃ n, args = JNum n) →
     fetch_calls (routeAction fetch registry (mkPayload action args mode) w).2
     = fetch_calls w
       ++ [FetchCall (JStr (url c))
             {| init_method := method c;
                init_headers := {[ "Content-Type" := "application/json" ]};
                init_body := Some (JObj {[ "mode" := mode ]}) |}])
  ∧ (∀ elems, ∃ body,
       fetch_calls (routeAction fetch registry (mkPayload action (JArr elems) mode) w).2
       = fetch_calls w
         ++ [FetchCall (JStr (url c))
               {| init_method := method c;
                  init_headers := {[ "Content-Type" := "application/json" ]};
                  init_body := Some (JObj body) |}]
       ∧ body !! "mode" = Some mode
       ∧ ∀ i : nat, body !! pretty i = elems !! i).
Proof.
  intros Hc. split.
  - intros args Hargs.
    destruct (routeAction_registered fetch registry (mkPayload action args mode) c w Hc)
      as [_ ->].
    cbn [Controller.args Controller.mode].
    assert (own_props args = ∅) as ->; [|done].
    destruct Hargs as [Hin|[[b ->]|[n ->]]]; [|done..].
    repeat (apply elem_of_cons in Hin as [->|Hin]; [done|]).
    by apply elem_of_nil in Hin.
  - intros elems. eexists. split_and!.
    + apply (routeAction_registered fetch registry
               (mkPayload action (JArr elems) mode) c w Hc).
    + apply lookup_insert_eq.
    + intros i. cbn [Controller.args Controller.mode own_props].
      rewrite lookup_insert_ne by (intros H; symmetry in H; by apply pretty_nat_not_mode in H).
      apply index_props_lookup.
Qed.

(** X10: the action counts only through its string form.  Take two
    actions that convert to the same string.  Two payloads with these
    actions, the same [args] and the same [mode], itself convertible,
    are dispatched alike, log lines included; and the handler answers
    two bodies alike when the actions are both truthy or both falsy, the
    other properties being the same. *)
Theorem action_counts_by_string_form (a a' : JsVal) :
  plain a = true →
  plain a' = true →
  ToString a = ToString a' →
  (∀ args mode w,
     plain mode = true →
     routeAction fetch registry (mkPayload a args mode) w
     = routeAction fetch registry (mkPayload a' args mode) w)
  ∧ (truthy a = truthy a' →
     ∀ props w,
       execute_handler fetch registry (JObj (<["action" := a]> props)) w
       = execute_handler fetch registry (JObj (<["action" := a']> props)) w).
Proof.
  intros _ _ Hs.
  assert (Hroute : ∀ args mode w,
            routeAction fetch registry (mkPayload a args mode) w
            = routeAction fetch registry (mkPayload a' args mode) w).
  { intros args mode w. rewrite !routeAction_run. cbv zeta.
    unfold received_events, forward_options.
    cbn [Controller.action Controller.args Controller.mode].
    by rewrite Hs. }
  split; [by intros args mode w _|].
  intros Ht props w. rewrite !execute_handler_run. cbn [has_fields]. cbv zeta.
  unfold fields_of, get_field.
  rewrite !lookup_insert_eq, !lookup_insert_ne by done.
  cbn [default Controller.action Controller.args Controller.mode].
  unfold id. rewrite Ht. destruct (negb (truthy a')); [done|].
  destruct (negb (truthy _)); [done|].
  destruct (negb (truthy _) || _); [done|].
  by rewrite Hroute.
Qed.

End Router.

Lemma dispatch_refuses_unresolved_witness :
  routeAction Examples.stub_ok (actionRegistry None)
    (mkPayload (JNum 5) (JObj ∅) (JStr "execute")) []
  = (Thrown (mkError "Error" "Unknown action: 5"),
     received_events (mkPayload (JNum 5) (JObj ∅) (JStr "execute"))).
Proof.
  pose proof (dispatch_refuses_unresolved Examples.stub_ok (actionRegistry None)
                (mkPayload (JNum 5) (JObj ∅) (JStr "execute")) []) as H.
  destruct H as [_ H].
  - reflexivity.
  - reflexivity.
  - rewrite H; [reflexivity | reflexivity |].
    apply (bool_decide_unpack _). vm_compute. exact I.
Defined.

Lemma body_of_non_mapping_args_witness :
  fetch_calls
    (routeAction Examples.stub_ok (actionRegistry None)
       (mkPayload (JStr "UpdateEmployee") (JNum 7) (JStr "simulate")) []).2
  = [FetchCall (JStr "http://localhost:3001/employees/update")
       {| init_method := "POST";
          init_headers := {[ "Content-Type" := "application/json" ]};
          init_body := Some (JObj {[ "mode" := JStr "simulate" ]}) |}].
Proof.
  pose proof (body_of_non_mapping_args Examples.stub_ok (actionRegistry None)
                (JStr "UpdateEmployee") (JStr "simulate")
                (mkConfig "http://localhost:3001/employees/update" "POST") []) as H.
  destruct H as [H _].
  - reflexivity.
  - rewrite (H (JNum 7)); [reflexivity|]. right. right. by exists 7.
Defined.

Lemma inherited_names_are_forwarded_witness :
  (routeAction Examples.stub_refused (actionRegistry None)
     (mkPayload (JStr "toString") (JObj ∅) (JStr "execute")) []).1
  = Thrown (TypeError "fetch failed")
  ∧ fetch_calls
      (routeAction Examples.stub_refused (actionRegistry None)
         (mkPayload (JStr "toString") (JObj ∅) (JStr "execute")) []).2
    = [FetchCall JUndefined
         {| init_method := "POST";
            init_headers := {[ "Content-Type" := "application/json" ]};
            init_body := Some (JObj {[ "mode" := JStr "execute" ]}) |}].
Proof.
  pose proof (inherited_names_are_forwarded Examples.stub_refused (actionRegistry None)
                (mkPayload (JStr "toString") (JObj ∅) (JStr "execute")) []) as H.
  destruct H as [H1 H2].
  - apply (bool_decide_unpack _). vm_compute. exact I.
  - reflexivity.
  - split; [rewrite H1; reflexivity | rewrite H2; reflexivity].
Defined.

Lemma action_counts_by_string_form_witness :
  execute_handler Examples.stub_ok (actionRegistry None)
    (JObj (<["action" := JArr [JStr "GetEmployee"]]>
             {[ "args" := JObj ∅; "mode" := JStr "execute" ]})) []
  = execute_handler Examples.stub_ok (actionRegistry None)
      (JObj (<["action" := JStr "GetEmployee"]>
               {[ "args" := JObj ∅; "mode" := JStr "execute" ]})) [].
Proof.
  pose proof (action_counts_by_string_form Examples.stub_ok (actionRegistry None)
                (JArr [JStr "GetEmployee"]) (JStr "GetEmployee")) as H.
  destruct H as [_ H].
  - reflexivity.
  - reflexivity.
  - reflexivity.
  - apply H. reflexivity.
Defined.

End RouterMoreFacts.

(** ** More on the entry handler and the other routes *)

Module HandlerMoreFacts.
Import Js Obj Eff Registry Controller Endpoints.
Import RunFacts RegistryFacts DispatchFacts HandlerFacts RouterMoreFacts.
Local Open Scope list_scope.

Lemma includes_modes v :
  includes ["simulate"; "execute"] v = true ↔ v = JStr "simulate" ∨ v = JStr "execute".
Proof.
  split.
  - destruct v as [| | | |s| |]; cbn; try discriminate.
    intros H%bool_decide_eq_true_1.
    repeat (apply elem_of_cons in H as [->|H]; [eauto|]).
    by apply elem_of_nil in H.
  - by intros [->| ->].
Qed.

Section Handler.
Variable fetch : JsVal -> FetchInit -> FetchOutcome.
Variable registry : PropList ServiceConfig.

Lemma on_error_shape e w :
  ∃ response props msg,
    (on_error registry e w).1 = Returned response
    ∧ res_status response ∈ [400; 404; 500]
    ∧ res_body response = JObj props
    ∧ props !! "error" = Some (JStr msg).
Proof.
  rewrite on_error_run. cbn [fst].
  destruct (String.prefix _ _); do 3 eexists; (split_and!; [reflexivity| |reflexivity|]).
  - set_solver.
  - reflexivity.
  - set_solver.
  - reflexivity.
Qed.

(** X11: the order of the checks.  With a truthy [action], falsy [args]
    are answered 400 [Missing required field: args] whatever [mode] is;
    with both truthy, a [mode] other than the strings [simulate] and
    [execute] is answered 400 with the mode message; in both cases
    nothing is logged or sent.  The check on [mode] passes for those two
    strings and nothing else. *)
Theorem validation_precedence (req_body : JsVal) (w : World) :
  has_fields req_body = true →
  truthy (get_field req_body "action") = true →
  (truthy (get_field req_body "args") = false →
   execute_handler fetch registry req_body w
   = (Returned (mkResponse 400 (error_body "Missing required field: args")), w))
  ∧ (truthy (get_field req_body "args") = true →
     get_field req_body "mode" ≠ JStr "simulate" →
     get_field req_body "mode" ≠ JStr "execute" →
     execute_handler fetch registry req_body w
     = (Returned (mkResponse 400 (error_body invalid_mode_message)), w))
  ∧ (∀ v, negb (truthy v) || negb (includes ["simulate"; "execute"] v) = false
          ↔ v = JStr "simulate" ∨ v = JStr "execute").
Proof.
  intros Hf Ha. rewrite execute_handler_run, Hf. cbv zeta.
  cbn [fields_of action args mode]. rewrite Ha. cbn [negb].
  split_and!.
  - by intros ->.
  - intros -> Hsim Hexe. cbn [negb].
    destruct (includes _ _) eqn:Hinc.
    + apply includes_modes in Hinc as [?|?]; done.
    + by rewrite orb_true_r.
  - intros v. rewrite <- includes_modes. split.
    + intros [_ H]%orb_false_elim. by apply negb_false_iff in H.
    + intros H. rewrite H. apply includes_modes in H as [->| ->]; done.
Qed.

(** X12: the outbound calls of a request.  The handler makes one
    outbound call when the body has properties, passes the checks and
    the registry lookup gives anything; otherwise it makes none.  It
    never makes two. *)
Theorem handler_outbound_calls (req_body : JsVal) (w : World) :
  let p := fields_of req_body in
  let slot := registry_get registry (ToString (action p)) in
  fetch_calls (execute_handler fetch registry req_body w).2
  = fetch_calls w
    ++ (if has_fields req_body && passes_validation p && slot_truthy slot
        then [FetchCall (slot_url slot) (options_init (forward_options slot p))]
        else []).
Proof.
  intros p slot.
  assert (Hcaught : ∀ e w', fetch_calls (on_error registry e w').2 = fetch_calls w').
  { intros e w'. rewrite on_error_run. cbn [snd]. rewrite fetch_calls_app.
    change (fetch_calls (caught_events e)) with (@nil Event). by rewrite app_nil_r. }
  rewrite execute_handler_run.
  destruct (has_fields req_body); cbn [andb]; [|by rewrite Hcaught, app_nil_r].
  cbv zeta. fold p. unfold passes_validation.
  destruct (truthy (action p)); cbn [negb andb]; [|by rewrite app_nil_r].
  destruct (truthy (args p)); cbn [negb andb]; [|by rewrite app_nil_r].
  destruct (includes _ (mode p)) eqn:Hinc; cbn [negb];
    [|by rewrite orb_true_r, app_nil_r].
  assert (truthy (mode p) = true) as ->.
  { apply includes_modes in Hinc as [->| ->]; done. }
  cbn [negb orb].
  destruct (slot_truthy slot) eqn:Hslot.
  - destruct (routeAction_forwarded_calls fetch registry p w Hslot) as [_ Hcalls].
    fold slot in Hcalls.
    destruct (routeAction fetch registry p w) as [[result|e] w'];
      cbn [snd] in *; by rewrite ?Hcaught.
  - rewrite routeAction_run. cbv zeta. fold slot. rewrite Hslot.
    rewrite Hcaught, fetch_calls_app.
    change (fetch_calls (received_events p)) with (@nil Event).
    by rewrite !app_nil_r.
Qed.

(** X13: a body that is not an object.  An array, a string, a number or
    a boolean has no [action] and is answered 400
    [Missing required field: action] with nothing logged; a missing or
    [null] body makes the destructuring throw, which is logged once and
    answered 500 with that error's message. *)
Theorem non_object_body (req_body : JsVal) (w : World) :
  Spec.mapping req_body = false →
  execute_handler fetch registry req_body w
  = if has_fields req_body
    then (Returned (mkResponse 400 (error_body "Missing required field: action")), w)
    else
      (Returned
         (server_error_response
            ("Cannot destructure property 'action' of 'req.body' as it is "
             ++ ToString req_body ++ ".")%string),
       w ++ [ConsoleError
               [LText "[Action Controller] Error:";
                LError (TypeError
                  ("Cannot destructure property 'action' of 'req.body' as it is "
                   ++ ToString req_body ++ ".")%string)]]).
Proof.
  intros Hm. rewrite execute_handler_run.
  destruct req_body; try discriminate; cbn [has_fields]; try reflexivity.
Qed.

(** X14: every listed action can be requested.  A request that passes
    the checks and names an action [getRegisteredActions] lists makes
    exactly one outbound call, to the URL and with the method the
    registry gives that name. *)
Theorem listed_action_is_routable (req_body : JsVal) (w : World) :
  has_fields req_body = true →
  passes_validation (fields_of req_body) = true →
  ToString (action (fields_of req_body)) ∈ getRegisteredActions registry →
  ∃ c,
    own_lookup registry (ToString (action (fields_of req_body))) = Some c
    ∧ fetch_calls (execute_handler fetch registry req_body w).2
      = fetch_calls w
        ++ [FetchCall (JStr (url c))
              {| init_method := method c;
                 init_headers := {[ "Content-Type" := "application/json" ]};
                 init_body :=
                   Some (JObj (<["mode" := mode (fields_of req_body)]>
                                 (own_props (args (fields_of req_body))))) |}].
Proof.
  intros Hf Hv Hin.
  unfold getRegisteredActions in Hin.
  rewrite RegistryMoreFacts.keys_perm, RegistryMoreFacts.elem_of_keys_raw in Hin.
  destruct Hin as [c Hc]. exists c. split; [exact Hc|].
  rewrite (execute_handler_valid _ _ _ _ Hf Hv).
  destruct (routeAction_registered fetch registry _ c w Hc) as [_ Hcalls].
  destruct (routeAction fetch registry _ w) as [[result|e] w']; cbn [snd] in *.
  - exact Hcalls.
  - rewrite on_error_run. cbn [snd]. rewrite fetch_calls_app.
    change (fetch_calls (caught_events e)) with (@nil Event).
    by rewrite app_nil_r.
Qed.

(** X15: every answer is the downstream's or an error object.  The
    handler always answers; its answer is either the status and data
    the dispatch returned, or an answer of its own, and then the status
    is 400, 404 or 500 and the body is an object with a string under
    [error]. *)
Theorem answers_are_relayed_or_error_objects (req_body : JsVal) (w : World) :
  ∃ response,
    (execute_handler fetch registry req_body w).1 = Returned response
    ∧ ((∃ result,
          routeAction fetch registry (fields_of req_body) w
          = (Returned result, (execute_handler fetch registry req_body w).2)
          ∧ response = mkResponse (status result) (data result))
       ∨ (res_status response ∈ [400; 404; 500]
          ∧ ∃ props msg,
              res_body response = JObj props ∧ props !! "error" = Some (JStr msg))).
Proof.
  assert (Hbad : ∀ msg w0,
            ∃ response,
              (Returned (mkResponse 400 (error_body msg)), w0).1 = Returned response
              ∧ ((∃ result,
                    routeAction fetch registry (fields_of req_body) w
                    = (Returned result,
                       (Returned (mkResponse 400 (error_body msg)), w0).2)
                    ∧ response = mkResponse (status result) (data result))
                 ∨ (res_status response ∈ [400; 404; 500]
                    ∧ ∃ props msg0,
                        res_body response = JObj props
                        ∧ props !! "error" = Some (JStr msg0)))).
  { intros msg w0. eexists. split; [reflexivity|]. right. split; [set_solver|].
    do 2 eexists. split; [reflexivity|]. apply lookup_singleton_eq. }
  assert (Hcaught : ∀ e w0,
            ∃ response,
              (on_error registry e w0).1 = Returned response
              ∧ ((∃ result,
                    routeAction fetch registry (fields_of req_body) w
                    = (Returned result, (on_error registry e w0).2)
                    ∧ response = mkResponse (status result) (data result))
                 ∨ (res_status response ∈ [400; 404; 500]
                    ∧ ∃ props msg0,
                        res_body response = JObj props
                        ∧ props !! "error" = Some (JStr msg0)))).
  { intros e w0. destruct (on_error_shape e w0) as (r & props & msg & H1 & H2 & H3 & H4).
    exists r. split; [exact H1|]. right. eauto. }
  rewrite execute_handler_run.
  destruct (has_fields req_body); [|apply Hcaught].
  cbv zeta.
  destruct (negb _); [apply Hbad|].
  destruct (negb _); [apply Hbad|].
  destruct (negb _ || _); [apply Hbad|].
  destruct (routeAction fetch registry (fields_of req_body) w) as [[result|e] w'] eqn:Hrun.
  - eexists. split; [reflexivity|]. left. eauto.
  - apply Hcaught.
Qed.

(** X16: the logger changes no answer.  Served behind the logging
    middleware, a request gets the response the handler alone gives and
    causes the same outbound calls; the middleware adds one line, made
    of the clock's reading, the method and the path, before everything
    the handler logs. *)
Theorem logger_is_transparent (now req_path : string) (req_body : JsVal) (w : World) :
  (post_execute fetch registry now req_path req_body w).1
  = (execute_handler fetch registry req_body w).1
  ∧ (post_execute fetch registry now req_path req_body w).2
    = w ++ [ConsoleLog [LText ("[" ++ now ++ "] POST " ++ req_path)%string]]
        ++ (execute_handler fetch registry req_body []).2
  ∧ fetch_calls (post_execute fetch registry now req_path req_body w).2
    = fetch_calls (execute_handler fetch registry req_body w).2.
Proof.
  pose proof (FrameFacts.oblivious_execute_handler fetch registry req_body) as Hframe.
  assert (Hrun : post_execute fetch registry now req_path req_body w
            = execute_handler fetch registry req_body
                (w ++ [ConsoleLog [LText ("[" ++ now ++ "] POST " ++ req_path)%string]])).
  { reflexivity. }
  rewrite Hrun, (Hframe (w ++ _)), (Hframe w). cbn [fst snd].
  split_and!; [done | by rewrite <- app_assoc |].
  rewrite !fetch_calls_app. cbn [fetch_calls List.filter is_fetch].
  by rewrite app_nil_r.
Qed.

(** X17: the health route, the 404 answer and the start-up line list
    the same actions.  [GET /health] answers 200 without logging or
    sending anything, and its [registeredActions] is the array the
    handler puts under [availableActions] when it answers 404 a request
    that passes the checks and whose action converts to a string the
    lookup does not resolve, and the one written at start-up; the port in the start-up
    line is the variable's text, or [3000] when it is unset or empty. *)
Theorem health_lists_what_not_found_lists
    (now : string) (req_body : JsVal) (w w' : World) (env_PORT : option string) :
  has_fields req_body = true →
  passes_validation (fields_of req_body) = true →
  plain (action (fields_of req_body)) = true →
  registry_get registry (ToString (action (fields_of req_body))) = SlotUndefined →
  ∃ health answer listed,
    health_handler registry now w' = (Returned (mkResponse 200 (JObj health)), w')
    ∧ (execute_handler fetch registry req_body w).1
      = Returned (mkResponse 404 (JObj answer))
    ∧ health !! "registeredActions" = Some listed
    ∧ answer !! "availableActions" = Some listed
    ∧ listed = JArr (JStr <$> keys registry)
    ∧ (on_listen registry env_PORT w').2
      = w' ++ [ConsoleLog
                 [LText ("[Action Controller] Server running on port "
                         ++ match env_PORT with
                            | Some s => if String.eqb s "" then "3000" else s
                            | None => "3000"
                            end)%string];
               ConsoleLog [LText "[Action Controller] Registered actions:";
                           LValue listed]].
Proof.
  intros Hf Hv _ Hslot. do 3 eexists. split_and!.
  - reflexivity.
  - rewrite (execute_handler_valid _ _ _ _ Hf Hv).
    rewrite routeAction_unknown by done.
    rewrite on_error_run. cbn [message Error fst].
    change (String.prefix "Unknown action:" ("Unknown action: " ++ _)%string) with true.
    reflexivity.
  - reflexivity.
  - reflexivity.
  - reflexivity.
  - cbv [on_listen bind console_log emit snd]. rewrite <- app_assoc. cbn [app].
    do 4 f_equal. unfold PORT.
    destruct env_PORT as [s|]; [|reflexivity].
    by destruct (String.eqb s "").
Qed.

End Handler.

Lemma validation_precedence_witness :
  execute_handler Examples.stub_ok (actionRegistry None)
    (Examples.envelope (JStr "CreateEmployee") (JObj ∅) (JStr "Execute")) []
  = (Returned (mkResponse 400 (error_body invalid_mode_message)), []).
Proof.
  pose proof (validation_precedence Examples.stub_ok (actionRegistry None)
                (Examples.envelope (JStr "CreateEmployee") (JObj ∅) (JStr "Execute")) [])
    as H.
  destruct H as (_ & H & _).
  - reflexivity.
  - reflexivity.
  - apply H; [reflexivity | | ]; vm_compute; discriminate.
Defined.

Lemma non_object_body_witness :
  execute_handler Examples.stub_ok (actionRegistry None)
    (JArr [JStr "CreateEmployee"; JObj ∅; JStr "execute"]) []
  = (Returned (mkResponse 400 (error_body "Missing required field: action")), []).
Proof.
  apply (non_object_body Examples.stub_ok (actionRegistry None)
           (JArr [JStr "CreateEmployee"; JObj ∅; JStr "execute"]) []).
  reflexivity.
Defined.

Lemma listed_action_is_routable_witness :
  ∃ c,
    own_lookup (actionRegistry None) "DeleteEmployee" = Some c
    ∧ fetch_calls
        (execute_handler Examples.stub_refused (actionRegistry None)
           (Examples.envelope (JStr "DeleteEmployee")
              (JObj {[ "id" := JStr "emp_123" ]}) (JStr "simulate")) []).2
      = [FetchCall (JStr (url c))
           {| init_method := method c;
              init_headers := {[ "Content-Type" := "application/json" ]};
              init_body :=
                Some (JObj {[ "id" := JStr "emp_123"; "mode" := JStr "simulate" ]}) |}].
Proof.
  pose proof (listed_action_is_routable Examples.stub_refused (actionRegistry None)
                (Examples.envelope (JStr "DeleteEmployee")
                   (JObj {[ "id" := JStr "emp_123" ]}) (JStr "simulate")) []) as H.
  destruct H as (c & Hc & Hcalls).
  - reflexivity.
  - reflexivity.
  - apply (bool_decide_unpack _). vm_compute. exact I.
  - exists c. split; [exact Hc|]. rewrite Hcalls. vm_compute in Hc.
    injection Hc as <-. vm_compute. reflexivity.
Defined.

Lemma health_lists_what_not_found_lists_witness :
  ∃ listed,
    (health_handler (actionRegistry None) "2025-01-01T00:00:00.000Z" []).1
    = Returned
        (mkResponse 200
           (JObj {[ "status" := JStr "ok";
                    "timestamp" := JStr "2025-01-01T00:00:00.000Z";
                    "registeredActions" := listed ]}))
    ∧ listed = JArr [JStr "CreateEmployee"; JStr "UpdateEmployee";
                     JStr "DeleteEmployee"; JStr "GetEmployee"].
Proof.
  pose proof (health_lists_what_not_found_lists Examples.stub_ok (actionRegistry None)
                "2025-01-01T00:00:00.000Z" Examples.delete_universe [] []
                (Some "8080")) as H.
  destruct H as (health & answer & listed & H1 & _ & H3 & _ & H5 & _).
  - reflexivity.
  - reflexivity.
  - reflexivity.
  - reflexivity.
  - exists listed. split.
    + rewrite H1. cbn [fst]. vm_compute in H1. injection H1 as <-.
      vm_compute in H3. injection H3 as <-. vm_compute. reflexivity.
    + rewrite H5. reflexivity.
Defined.

End HandlerMoreFacts.
